(** * less_slow.py — the numeric pipeline and its five execution strategies

    A shallow embedding of the region "Pipelines and Abstractions" of
    [less_slow.py]: the two filter predicates, the trial-division
    factorizer in its three forms (callback, generator, iterator class),
    the polymorphic stages and the five pipeline entry points.

    Python integers are unbounded, so they are [Z]; [%] and [//] are the
    floor operations [Z.modulo] and [Z.div], which raise
    [ZeroDivisionError] on a zero divisor.  A [while] loop is a fixpoint
    on a bound of its number of iterations; running past the bound is the
    outcome [OutOfFuel], never a value. *)

From Stdlib Require Import ZArith List Bool Lia Znumtheory Sorted.
From Stdlib Require String DecimalString.
Import ListNotations.
Open Scope Z_scope.

(** ** Outcomes of a call *)

Inductive exn : Type :=
| ZeroDivisionError
| StopIteration.

Inductive result (A : Type) : Type :=
| Ok (a : A)
| Raise (e : exn)
| OutOfFuel.

Arguments Ok {A} a.
Arguments Raise {A} e.
Arguments OutOfFuel {A}.

Definition bind {A B : Type} (m : result A) (k : A -> result B) : result B :=
  match m with
  | Ok a => k a
  | Raise e => Raise e
  | OutOfFuel => OutOfFuel
  end.

Notation "x <- m ;; k" := (bind m (fun x => k))
  (at level 61, m at next level, right associativity).
Notation "' p <- m ;; k" := (bind m (fun p => k))
  (at level 61, p pattern, m at next level, right associativity).

(** [a % b] and [a // b] on Python integers. *)
Definition py_mod (a b : Z) : result Z :=
  if b =? 0 then Raise ZeroDivisionError else Ok (a mod b).

Definition py_floordiv (a b : Z) : result Z :=
  if b =? 0 then Raise ZeroDivisionError else Ok (a / b).

(** [range(start, stop)] as the list of its values. *)
Definition py_range (start stop : Z) : list Z :=
  map (fun i => start + Z.of_nat i) (seq 0 (Z.to_nat (stop - start))).

(** ** The predicate library *)

Definition PIPE_START : Z := 3.
Definition PIPE_END : Z := 49.

(** [x > 0 and (x & (x - 1)) == 0]: nothing in it can raise. *)
Definition is_power_of_two (x : Z) : result bool :=
  if x >? 0 then Ok (Z.land x (x - 1) =? 0) else Ok false.

Definition MAX_POWER_OF_THREE : Z := 12157665459056928801.

(** [x > 0 and (MAX_POWER_OF_THREE % x == 0)]: the [%] is evaluated only
    when the left operand of [and] is true. *)
Definition is_power_of_three (x : Z) : result bool :=
  if x >? 0 then r <- py_mod MAX_POWER_OF_THREE x ;; Ok (r =? 0) else Ok false.

(** ** Generator objects

    A generator object is modelled by what its single consumer observes
    when it drains it: the values yielded in order, closed by the way the
    generator stops.  Pulling is lazy, so the first failure met in pull
    order ends the whole chain; the constructors [Throw] and [Hang] keep
    that order. *)

Inductive gen (A : Type) : Type :=
| Yield (x : A) (rest : gen A)
| Done
| Throw (e : exn)
| Hang.

Arguments Yield {A} x rest.
Arguments Done {A}.
Arguments Throw {A} e.
Arguments Hang {A}.

(** A call made inside a generator body. *)
Definition gen_try {A B : Type} (m : result A) (k : A -> gen B) : gen B :=
  match m with
  | Ok a => k a
  | Raise e => Throw e
  | OutOfFuel => Hang
  end.

(** Iterating a list or a [range]. *)
Fixpoint gen_of_list {A : Type} (l : list A) : gen A :=
  match l with
  | [] => Done
  | x :: xs => Yield x (gen_of_list xs)
  end.

(** [for x in inner: yield x], then go on as [k]. *)
Fixpoint yield_all {A : Type} (inner k : gen A) : gen A :=
  match inner with
  | Yield x rest => Yield x (yield_all rest k)
  | Done => k
  | Throw e => Throw e
  | Hang => Hang
  end.

(** The builtin [filter(function, iterable)]: keeps what [function] accepts. *)
Fixpoint py_filter {A : Type} (function : A -> result bool) (iterable : gen A)
  : gen A :=
  match iterable with
  | Yield x rest =>
      gen_try (function x)
        (fun keep => if keep then Yield x (py_filter function rest)
                     else py_filter function rest)
  | Done => Done
  | Throw e => Throw e
  | Hang => Hang
  end.

(** The builtin [map(function, iterable)], for a [function] that only
    builds an object (calling a generator function runs none of its body). *)
Fixpoint py_map {A B : Type} (function : A -> B) (iterable : gen A) : gen B :=
  match iterable with
  | Yield x rest => Yield (function x) (py_map function rest)
  | Done => Done
  | Throw e => Throw e
  | Hang => Hang
  end.

(** [itertools.chain.from_iterable]. *)
Fixpoint chain_from_iterable {A : Type} (iterables : gen (gen A)) : gen A :=
  match iterables with
  | Yield inner rest => yield_all inner (chain_from_iterable rest)
  | Done => Done
  | Throw e => Throw e
  | Hang => Hang
  end.

(** [functools.reduce(function, iterable, initial)]. *)
Fixpoint py_reduce {A B : Type} (function : B -> A -> B) (iterable : gen A)
  (initial : B) : result B :=
  match iterable with
  | Yield x rest => py_reduce function rest (function initial x)
  | Done => Ok initial
  | Throw e => Raise e
  | Hang => OutOfFuel
  end.

(** A [for] (or [async for]) statement over a generator, its body acting
    on the variables it assigns. *)
Fixpoint for_gen {A St : Type} (iterable : gen A) (body : A -> St -> result St)
  (st : St) : result St :=
  match iterable with
  | Yield x rest => st' <- body x st ;; for_gen rest body st'
  | Done => Ok st
  | Throw e => Raise e
  | Hang => OutOfFuel
  end.

(** A [for] statement over a list or a [range]. *)
Fixpoint for_list {A St : Type} (values : list A) (body : A -> St -> result St)
  (st : St) : result St :=
  match values with
  | [] => Ok st
  | v :: vs => st' <- body v st ;; for_list vs body st'
  end.

(** The step of the trial divisor: [factor += 1 if factor == 2 else 2]. *)
Definition next_factor (factor : Z) : Z :=
  factor + (if factor =? 2 then 1 else 2).

(** ** Callbacks *)

(** The [while] loop of [prime_factors_callback]; [st] is the state the
    callback acts on.  The locals [number] and [factor] are returned with
    it so that their final values can be stated. *)
Fixpoint callback_while {St : Type} (fuel : nat)
  (callback : Z -> St -> result St) (number factor : Z) (st : St)
  : result (Z * Z * St) :=
  match fuel with
  | O => OutOfFuel
  | S fuel' =>
      if number >? 1 then
        r <- py_mod number factor ;;
        if r =? 0 then
          st' <- callback factor st ;;
          q <- py_floordiv number factor ;;
          callback_while fuel' callback q factor st'
        else callback_while fuel' callback number (next_factor factor) st
      else Ok (number, factor, st)
  end.

Definition prime_factors_callback {St : Type} (fuel : nat) (number : Z)
  (callback : Z -> St -> result St) (st : St) : result St :=
  '(_, _, st') <- callback_while fuel callback number 2 st ;; Ok st'.

(** The closure [record_factor] and the two variables it rebinds. *)
Definition record_factor (factor : Z) (st : Z * Z) : result (Z * Z) :=
  let '(sum_factors, count) := st in Ok (sum_factors + factor, count + 1).

(** [not is_power_of_two(value) and not is_power_of_three(value)]. *)
Definition passes_filters (value : Z) : result bool :=
  p2 <- is_power_of_two value ;;
  if negb p2 then p3 <- is_power_of_three value ;; Ok (negb p3) else Ok false.

Definition pipeline_callbacks_over (pipe_start pipe_end : Z) (fuel : nat)
  : result (Z * Z) :=
  for_list (py_range pipe_start (pipe_end + 1))
    (fun value st =>
       keep <- passes_filters value ;;
       if keep then prime_factors_callback fuel value record_factor st
       else Ok st)
    (0, 0).

Definition pipeline_callbacks (fuel : nat) : result (Z * Z) :=
  pipeline_callbacks_over PIPE_START PIPE_END fuel.

(** ** Generators *)

Fixpoint generator_while (fuel : nat) (number factor : Z) : gen Z :=
  match fuel with
  | O => Hang
  | S fuel' =>
      if number >? 1 then
        gen_try (py_mod number factor) (fun r =>
          if r =? 0 then
            Yield factor
              (gen_try (py_floordiv number factor) (fun q =>
                 generator_while fuel' q factor))
          else generator_while fuel' number (next_factor factor))
      else Done
  end.

Definition prime_factors_generator (fuel : nat) (number : Z) : gen Z :=
  generator_while fuel number 2.

(** The tail of [pipeline_generators], from [map] to the [return]. *)
Definition expand_and_reduce (fuel : nat) (values : gen Z) : result (Z * Z) :=
  let values_factors := py_map (prime_factors_generator fuel) values in
  let all_factors := chain_from_iterable values_factors in
  py_reduce (fun acc factor => (fst acc + factor, snd acc + 1))
    all_factors (0, 0).

(** [lambda x: not is_power_of_two(x)] and [lambda x: not is_power_of_three(x)]. *)
Definition not_power_of_two (x : Z) : result bool :=
  b <- is_power_of_two x ;; Ok (negb b).

Definition not_power_of_three (x : Z) : result bool :=
  b <- is_power_of_three x ;; Ok (negb b).

Definition pipeline_generators_over (pipe_start pipe_end : Z) (fuel : nat)
  : result (Z * Z) :=
  let values := gen_of_list (py_range pipe_start (pipe_end + 1)) in
  let values := py_filter not_power_of_two values in
  let values := py_filter not_power_of_three values in
  expand_and_reduce fuel values.

Definition pipeline_generators (fuel : nat) : result (Z * Z) :=
  pipeline_generators_over PIPE_START PIPE_END fuel.

(** ** Iterators *)

Module PrimeFactors.

(** The attributes of an instance. *)
Record t : Type := { number : Z; factor : Z }.

Definition __init__ (number : Z) : t :=
  {| number := number; factor := 2 |}.

(** [__next__] returns the factor with the updated object, or raises. *)
Fixpoint __next__ (fuel : nat) (self : t) : result (Z * t) :=
  match fuel with
  | O => OutOfFuel
  | S fuel' =>
      if number self >? 1 then
        r <- py_mod (number self) (factor self) ;;
        if r =? 0 then
          q <- py_floordiv (number self) (factor self) ;;
          Ok (factor self, {| number := q; factor := factor self |})
        else
          __next__ fuel'
            {| number := number self;
               factor := next_factor (factor self) |}
      else Raise StopIteration
  end.

(** A [for] statement over an instance: [__iter__] returns the object
    itself, [__next__] is called until it raises [StopIteration].
    [steps] bounds the number of calls. *)
Fixpoint for_in {St : Type} (fuel steps : nat) (self : t)
  (body : Z -> St -> result St) (st : St) : result St :=
  match steps with
  | O => OutOfFuel
  | S steps' =>
      match __next__ fuel self with
      | Ok (x, self') =>
          st' <- body x st ;; for_in fuel steps' self' body st'
      | Raise StopIteration => Ok st
      | Raise e => Raise e
      | OutOfFuel => OutOfFuel
      end
  end.

End PrimeFactors.

Definition pipeline_iterators_over (pipe_start pipe_end : Z) (fuel : nat)
  : result (Z * Z) :=
  for_list (py_range pipe_start (pipe_end + 1))
    (fun value st =>
       keep <- passes_filters value ;;
       if keep then
         PrimeFactors.for_in fuel fuel (PrimeFactors.__init__ value)
           (fun factor '(sum_factors, count) =>
              Ok (sum_factors + factor, count + 1))
           st
       else Ok st)
    (0, 0).

Definition pipeline_iterators (fuel : nat) : result (Z * Z) :=
  pipeline_iterators_over PIPE_START PIPE_END fuel.

(** ** Polymorphic stages *)

Inductive PipelineStage : Type :=
| ForRangeStage (start end_ : Z)
| FilterStage (predicate : Z -> result bool)
| PrimeFactorsStage.

(** [[x for x in data if not predicate(x)]]. *)
Fixpoint comprehension_if_not (predicate : Z -> result bool) (data : list Z)
  : result (list Z) :=
  match data with
  | [] => Ok []
  | x :: xs =>
      b <- predicate x ;;
      rest <- comprehension_if_not predicate xs ;;
      Ok (if negb b then x :: rest else rest)
  end.

(** [list.extend] fed by a [PrimeFactors] instance. *)
Definition extend_from (fuel : nat) (result_ : list Z) (it : PrimeFactors.t)
  : result (list Z) :=
  PrimeFactors.for_in fuel fuel it (fun x acc => Ok (acc ++ [x])) result_.

(** [stage.process(data)]: the method chosen by the class of [stage]; the
    shared list [data] is passed in and its new contents passed out. *)
Definition process (fuel : nat) (stage : PipelineStage) (data : list Z)
  : result (list Z) :=
  match stage with
  | ForRangeStage start end_ => Ok ([] ++ py_range start (end_ + 1))
  | FilterStage predicate => comprehension_if_not predicate data
  | PrimeFactorsStage =>
      for_list data
        (fun val result_ =>
           extend_from fuel result_ (PrimeFactors.__init__ val))
        []
  end.

(** [for stage in pipeline_stages: stage.process(data)], then
    [sum(data), len(data)]. *)
Definition run_stages (fuel : nat) (pipeline_stages : list PipelineStage)
  : result (Z * Z) :=
  data <- for_list pipeline_stages (process fuel) [] ;;
  Ok (fold_left Z.add data 0, Z.of_nat (length data)).

Definition pipeline_dynamic_dispatch_over (pipe_start pipe_end : Z)
  (fuel : nat) : result (Z * Z) :=
  run_stages fuel
    [ ForRangeStage pipe_start pipe_end;
      FilterStage is_power_of_two;
      FilterStage is_power_of_three;
      PrimeFactorsStage ].

Definition pipeline_dynamic_dispatch (fuel : nat) : result (Z * Z) :=
  pipeline_dynamic_dispatch_over PIPE_START PIPE_END fuel.

(** ** Async generators

    One task drives the whole chain, so an async generator is observed as
    a plain one: the same [gen]. *)

Definition for_range_async (start end_ : Z) : gen Z :=
  gen_of_list (py_range start (end_ + 1)).

Fixpoint filter_async (generator : gen Z) (predicate : Z -> result bool)
  : gen Z :=
  match generator with
  | Yield value rest =>
      gen_try (predicate value)
        (fun b => if negb b then Yield value (filter_async rest predicate)
                  else filter_async rest predicate)
  | Done => Done
  | Throw e => Throw e
  | Hang => Hang
  end.

Fixpoint prime_factors_async (fuel : nat) (generator : gen Z) : gen Z :=
  match generator with
  | Yield val rest =>
      yield_all (prime_factors_generator fuel val)
        (prime_factors_async fuel rest)
  | Done => Done
  | Throw e => Throw e
  | Hang => Hang
  end.

Definition pipeline_async_over (pipe_start pipe_end : Z) (fuel : nat)
  : result (Z * Z) :=
  let values := for_range_async pipe_start pipe_end in
  let values := filter_async values is_power_of_two in
  let values := filter_async values is_power_of_three in
  let values := prime_factors_async fuel values in
  for_gen values
    (fun factor '(sum_factors, count) => Ok (sum_factors + factor, count + 1))
    (0, 0).

(** [asyncio.run(pipeline_async())]. *)
Definition pipeline_async (fuel : nat) : result (Z * Z) :=
  pipeline_async_over PIPE_START PIPE_END fuel.

Definition PIPE_EXPECTED_SUM : Z := 645.
Definition PIPE_EXPECTED_COUNT : Z := 84.

(** ** Errors: raising, [Expected] objects and status codes

    The region "Errors" of [less_slow.py]: one increment of an integer
    kept in a file, with failures simulated from the iteration number,
    written three times.  The builtins [int(s)] and [s.isnumeric()] are
    parameters; a value that may be [None] is an [option]. *)

Module Errors.

Import String.
Definition fail_period_read_integer : Z := 6.
Definition fail_period_convert_to_integer : Z := 11.
Definition fail_period_next_string : Z := 17.
Definition fail_period_write_back : Z := 23.

Inductive exception : Type :=
| RuntimeError (message : string)
| ValueError (message : string)
| AttributeError
| TypeError.

Inductive outcome (A : Type) : Type :=
| Returns (a : A)
| Raises (e : exception).

Arguments Returns {A} a.
Arguments Raises {A} e.

(** [str(n)] on an integer, also inside an f-string: its decimal writing. *)
Definition py_str (n : Z) : string :=
  DecimalString.NilZero.string_of_int (Z.to_int n).

Inductive Status : Type :=
| SUCCESS
| READ_FAILED
| CONVERT_FAILED
| INCREMENT_FAILED
| WRITE_FAILED.

(** An [Expected] object: its two slots. *)
Record Expected (A : Type) : Type :=
  new_Expected { value : option A; error : option Status }.

Arguments new_Expected {A} value error.
Arguments value {A} e.
Arguments error {A} e.

Definition is_ok {A : Type} (self : Expected A) : bool :=
  match error self with
  | None => true
  | Some _ => false
  end.

Definition STATUS_SUCCESS : Z := 0.
Definition STATUS_READ_FAILED : Z := 1.
Definition STATUS_CONVERT_FAILED : Z := 2.
Definition STATUS_INCREMENT_FAILED : Z := 3.
Definition STATUS_WRITE_FAILED : Z := 4.

Section Builtins.

(** [int(s)], with the exception it raises on a string it rejects, and
    [s.isnumeric()]. *)
Variable py_int : string -> outcome Z.
Variable isnumeric : string -> bool.

Definition read_integer_from_file_or_raise (file : string) (iteration : Z)
  : outcome string :=
  if iteration mod fail_period_read_integer =? 0 then
    Raises (RuntimeError ("File read failed at iteration " ++ py_str iteration)%string)
  else if iteration mod fail_period_convert_to_integer =? 0 then Returns "abc"%string
  else Returns "1"%string.

(** [try: return int(value)], [except ValueError: raise ValueError(...)]. *)
Definition string_to_integer_or_raise (value : string) (iteration : Z)
  : outcome Z :=
  match py_int value with
  | Returns n => Returns n
  | Raises (ValueError _) =>
      Raises (ValueError ("Conversion failed at iteration " ++ py_str iteration)%string)
  | Raises e => Raises e
  end.

Definition integer_to_next_string_or_raise (value iteration : Z)
  : outcome string :=
  if iteration mod fail_period_next_string =? 0 then
    Raises (RuntimeError ("Increment failed at iteration " ++ py_str iteration)%string)
  else Returns (py_str (value + 1)).

Definition write_to_file_or_raise (file value : string) (iteration : Z)
  : outcome unit :=
  if iteration mod fail_period_write_back =? 0 then
    Raises (RuntimeError ("File write failed at iteration " ++ py_str iteration)%string)
  else Returns tt.

Definition increment_file_or_raise (file : string) (iteration : Z)
  : outcome unit :=
  match read_integer_from_file_or_raise file iteration with
  | Raises e => Raises e
  | Returns read_value =>
      match string_to_integer_or_raise read_value iteration with
      | Raises e => Raises e
      | Returns int_value =>
          match integer_to_next_string_or_raise int_value iteration with
          | Raises e => Raises e
          | Returns next_value =>
              write_to_file_or_raise file next_value iteration
          end
      end
  end.

Definition read_integer_from_file_expected (file : string) (iteration : Z)
  : outcome (Expected string) :=
  if iteration mod fail_period_read_integer =? 0 then
    Returns (new_Expected None (Some READ_FAILED))
  else if iteration mod fail_period_convert_to_integer =? 0 then
    Returns (new_Expected (Some "abc"%string) None)
  else Returns (new_Expected (Some "1"%string) None).

(** [value] is what the caller found in a slot: a string or [None]. *)
Definition string_to_integer_expected (value : option string) (iteration : Z)
  : outcome (Expected Z) :=
  match value with
  | None => Raises AttributeError
  | Some s =>
      if negb (isnumeric s) then
        Returns (new_Expected None (Some CONVERT_FAILED))
      else
        match py_int s with
        | Returns n => Returns (new_Expected (Some n) None)
        | Raises e => Raises e
        end
  end.

Definition integer_to_next_string_expected (value : option Z) (iteration : Z)
  : outcome (Expected string) :=
  if iteration mod fail_period_next_string =? 0 then
    Returns (new_Expected None (Some INCREMENT_FAILED))
  else
    match value with
    | None => Raises TypeError
    | Some n => Returns (new_Expected (Some (py_str (n + 1))) None)
    end.

Definition write_to_file_expected (file : string) (value : option string)
  (iteration : Z) : outcome Status :=
  if iteration mod fail_period_write_back =? 0 then Returns WRITE_FAILED
  else Returns SUCCESS.

(** The function returns a slot [error], or the status of the write: a
    [Status] or [None]. *)
Definition increment_file_expected (file : string) (iteration : Z)
  : outcome (option Status) :=
  match read_integer_from_file_expected file iteration with
  | Raises e => Raises e
  | Returns res_read =>
      if negb (is_ok res_read) then Returns (error res_read)
      else
        match string_to_integer_expected (value res_read) iteration with
        | Raises e => Raises e
        | Returns res_int =>
            if negb (is_ok res_int) then Returns (error res_int)
            else
              match integer_to_next_string_expected (value res_int) iteration with
              | Raises e => Raises e
              | Returns res_incr =>
                  if negb (is_ok res_incr) then Returns (error res_incr)
                  else
                    match write_to_file_expected file (value res_incr) iteration with
                    | Raises e => Raises e
                    | Returns st => Returns (Some st)
                    end
              end
        end
  end.

Definition read_integer_from_file_status (file : string) (iteration : Z)
  : outcome (option string * Z) :=
  if iteration mod fail_period_read_integer =? 0 then
    Returns (None, STATUS_READ_FAILED)
  else if iteration mod fail_period_convert_to_integer =? 0 then
    Returns (Some "abc"%string, STATUS_SUCCESS)
  else Returns (Some "1"%string, STATUS_SUCCESS).

Definition string_to_integer_status (value : option string) (iteration : Z)
  : outcome (option Z * Z) :=
  match value with
  | None => Raises AttributeError
  | Some s =>
      if negb (isnumeric s) then Returns (None, STATUS_CONVERT_FAILED)
      else
        match py_int s with
        | Returns n => Returns (Some n, STATUS_SUCCESS)
        | Raises e => Raises e
        end
  end.

Definition integer_to_next_string_status (value : option Z) (iteration : Z)
  : outcome (option string * Z) :=
  if iteration mod fail_period_next_string =? 0 then
    Returns (None, STATUS_INCREMENT_FAILED)
  else
    match value with
    | None => Raises TypeError
    | Some n => Returns (Some (py_str (n + 1)), STATUS_SUCCESS)
    end.

Definition write_to_file_status (file : string) (value : option string)
  (iteration : Z) : outcome Z :=
  if iteration mod fail_period_write_back =? 0 then Returns STATUS_WRITE_FAILED
  else Returns STATUS_SUCCESS.

Definition increment_file_status (file : string) (iteration : Z) : outcome Z :=
  match read_integer_from_file_status file iteration with
  | Raises e => Raises e
  | Returns (read_value, read_status) =>
      if negb (read_status =? STATUS_SUCCESS) then Returns read_status
      else
        match string_to_integer_status read_value iteration with
        | Raises e => Raises e
        | Returns (int_value, int_status) =>
            if negb (int_status =? STATUS_SUCCESS) then Returns int_status
            else
              match integer_to_next_string_status int_value iteration with
              | Raises e => Raises e
              | Returns (next_value, next_status) =>
                  if negb (next_status =? STATUS_SUCCESS) then
                    Returns next_status
                  else write_to_file_status file next_value iteration
              end
        end
  end.

(** The loop of a [runner] closure, [for _ in range(rounds)], with the
    call it makes as a parameter; [swallow] tells whether the call sits in
    [try: ... except Exception: pass]. *)
Fixpoint runner_loop {A : Type} (call : Z -> outcome A) (swallow : bool)
  (rounds : nat) (iteration : Z) : outcome unit :=
  match rounds with
  | O => Returns tt
  | S rounds' =>
      let iteration := iteration + 1 in
      match call iteration with
      | Returns _ => runner_loop call swallow rounds' iteration
      | Raises e =>
          if swallow then runner_loop call swallow rounds' iteration
          else Raises e
      end
  end.

(** The closures [runner] of the three tests. *)
Definition runner_raise : outcome unit :=
  runner_loop (increment_file_or_raise "test.txt"%string) true 1000 0.

Definition runner_expected : outcome unit :=
  runner_loop (increment_file_expected "test.txt"%string) false 1000 0.

Definition runner_status : outcome unit :=
  runner_loop (increment_file_status "test.txt"%string) false 1000 0.

End Builtins.

(** The status a raised exception stands for, by its class and the start
    of its message, and the code of a status. *)
Definition code_of_status (st : Status) : Z :=
  match st with
  | SUCCESS => STATUS_SUCCESS
  | READ_FAILED => STATUS_READ_FAILED
  | CONVERT_FAILED => STATUS_CONVERT_FAILED
  | INCREMENT_FAILED => STATUS_INCREMENT_FAILED
  | WRITE_FAILED => STATUS_WRITE_FAILED
  end.

(** What [increment_file_or_raise] does at [iteration] when the increment
    ends in the status [st]. *)
Definition raised_for (st : Status) (iteration : Z) : outcome unit :=
  match st with
  | SUCCESS => Returns tt
  | READ_FAILED =>
      Raises (RuntimeError ("File read failed at iteration " ++ py_str iteration)%string)
  | CONVERT_FAILED =>
      Raises (ValueError ("Conversion failed at iteration " ++ py_str iteration)%string)
  | INCREMENT_FAILED =>
      Raises (RuntimeError ("Increment failed at iteration " ++ py_str iteration)%string)
  | WRITE_FAILED =>
      Raises (RuntimeError ("File write failed at iteration " ++ py_str iteration)%string)
  end.

(** The first stage that fails at [iteration], in the order read,
    convert, increment, write. *)
Definition first_failure (iteration : Z) : Status :=
  if iteration mod 6 =? 0 then READ_FAILED
  else if iteration mod 11 =? 0 then CONVERT_FAILED
  else if iteration mod 17 =? 0 then INCREMENT_FAILED
  else if iteration mod 23 =? 0 then WRITE_FAILED
  else SUCCESS.

End Errors.

(** ** The cursor of the specification

    Section 4.6 of the specification, in its words: the states are
    Active(remainder, divisor) and Exhausted; an advance emits the divisor
    and divides the remainder by it when the remainder is divisible by the
    divisor, and otherwise increments the divisor (from 2 to 3, then by 2)
    and retries; the cursor is Exhausted when the remainder reaches 1. *)

Inductive cursor : Type :=
| Active (remainder divisor : Z)
| Exhausted.

Inductive signal : Type :=
| Emit (factor : Z)
| Exhaustion.

Definition settle (remainder divisor : Z) : cursor :=
  if remainder =? 1 then Exhausted else Active remainder divisor.

Definition spec_construct (n : Z) : cursor :=
  if n <=? 1 then Exhausted else Active n 2.

Fixpoint spec_advance (fuel : nat) (c : cursor) : result (signal * cursor) :=
  match fuel with
  | O => OutOfFuel
  | S fuel' =>
      match c with
      | Exhausted => Ok (Exhaustion, Exhausted)
      | Active remainder divisor =>
          if remainder mod divisor =? 0 then
            Ok (Emit divisor, settle (remainder / divisor) divisor)
          else
            spec_advance fuel'
              (Active remainder (if divisor =? 2 then 3 else divisor + 2))
      end
  end.

(** The cursor state an instance of [PrimeFactors] stands for. *)
Definition cursor_of (self : PrimeFactors.t) : cursor :=
  if PrimeFactors.number self >? 1
  then Active (PrimeFactors.number self) (PrimeFactors.factor self)
  else Exhausted.

(** An outcome of [__next__] against an outcome of the specification's
    advance: the same factor with matching states, or exhaustion on both
    sides, or the bound reached on both sides. *)
Definition advance_matches (r : result (Z * PrimeFactors.t))
  (s : result (signal * cursor)) : Prop :=
  match r, s with
  | Ok (x, self'), Ok (Emit y, c') => x = y /\ cursor_of self' = c'
  | Raise StopIteration, Ok (Exhaustion, Exhausted) => True
  | OutOfFuel, OutOfFuel => True
  | _, _ => False
  end.

(** The states an instance built on [n] goes through. *)
Inductive reachable (n : Z) : PrimeFactors.t -> Prop :=
| reach_init : reachable n (PrimeFactors.__init__ n)
| reach_next (fuel : nat) (self self' : PrimeFactors.t) (x : Z) :
    reachable n self ->
    PrimeFactors.__next__ fuel self = Ok (x, self') ->
    reachable n self'.

(** ** Reference functions for the statements *)

Definition product (l : list Z) : Z := fold_right Z.mul 1 l.

Definition total (l : list Z) : Z := fold_right Z.add 0 l.

(** The values yielded by a generator before it stops. *)
Fixpoint yields {A : Type} (g : gen A) : list A :=
  match g with
  | Yield x rest => x :: yields rest
  | _ => []
  end.

(** A number of iterations that is enough for every loop started on a
    value up to [n]. *)
Definition enough_for (n : Z) : nat := S (Z.to_nat (2 * n)).

(** The factor sequence of [n]. *)
Definition factorize (n : Z) : list Z :=
  yields (prime_factors_generator (enough_for n) n).

(** The booleans the two predicates return. *)
Definition pow2b (x : Z) : bool := (0 <? x) && (Z.land x (x - 1) =? 0).

Definition pow3b (x : Z) : bool :=
  (0 <? x) && (MAX_POWER_OF_THREE mod x =? 0).

(** [x] has exactly one set bit, at position [k]. *)
Definition only_bit (x k : Z) : Prop :=
  0 <= k /\ forall i, Z.testbit x i = (i =? k).

(** What the loop knows of its locals when it tests its guard: the divisor
    is 2 or odd, and nothing from 2 up to it divides the remainder. *)
Definition trial_inv (number factor : Z) : Prop :=
  2 <= factor
  /\ (factor = 2 \/ Z.odd factor = true)
  /\ forall d, 2 <= d < factor -> ~ (d | number).

(** [p] is a prime: at least 2 and with no divisor from 2 below it. *)
Definition is_prime (p : Z) : Prop :=
  2 <= p /\ forall d, 2 <= d < p -> ~ (d | p).

(** The values of a list that reach the expansion stage. *)
Definition survivors (values : list Z) : list Z :=
  filter (fun x => negb (pow2b x) && negb (pow3b x)) values.

(** The pair every strategy is expected to return on [[a, b]]. *)
Definition expected_pair (a b : Z) : Z * Z :=
  let factors := flat_map factorize (survivors (py_range a (b + 1))) in
  (total factors, Z.of_nat (length factors)).

(** The pair a pipeline returns on [[a, c]] is the sum, component by
    component, of the pairs it returns on [[a, b]] and on [[b + 1, c]]. *)
Definition adds_up (pipeline : Z -> Z -> nat -> result (Z * Z))
  (a b c : Z) (fuel : nat) : Prop :=
  exists s1 c1 s2 c2,
    pipeline a b fuel = Ok (s1, c1)
    /\ pipeline (b + 1) c fuel = Ok (s2, c2)
    /\ pipeline a c fuel = Ok (s1 + s2, c1 + c2).

(** * Properties *)

(** ** The predicates *)

Lemma is_power_of_two_eq (x : Z) : is_power_of_two x = Ok (pow2b x).
Proof.
  unfold is_power_of_two, pow2b. rewrite Z.gtb_ltb.
  destruct (0 <? x); reflexivity.
Qed.

Lemma is_power_of_three_eq (x : Z) : is_power_of_three x = Ok (pow3b x).
Proof.
  unfold is_power_of_three, pow3b, py_mod. rewrite Z.gtb_ltb.
  destruct (0 <? x) eqn:Hx; [|reflexivity].
  apply Z.ltb_lt in Hx.
  destruct (x =? 0) eqn:E; [apply Z.eqb_eq in E; lia | reflexivity].
Qed.

Lemma land_even_odd (a b : Z) : Z.land (2 * a) (2 * b + 1) = 2 * Z.land a b.
Proof.
  apply Z.bits_inj'. intros n Hn.
  rewrite Z.land_spec.
  destruct (Z.eq_dec n 0) as [->|Hn0].
  - now rewrite !Z.testbit_even_0.
  - replace n with (Z.succ (n - 1)) by lia.
    rewrite !Z.testbit_even_succ, Z.testbit_odd_succ, Z.land_spec by lia.
    reflexivity.
Qed.

Lemma land_odd_even (a b : Z) : Z.land (2 * a + 1) (2 * b) = 2 * Z.land a b.
Proof. now rewrite Z.land_comm, land_even_odd, Z.land_comm. Qed.

(** The bit trick, on the binary representation of [x]. *)
Lemma land_pred_pos (p : positive) :
  Z.land (Z.pos p) (Z.pos p - 1) = 0 -> exists k, 0 <= k /\ Z.pos p = 2 ^ k.
Proof.
  induction p as [p IH|p IH|]; intros H.
  - rewrite Pos2Z.inj_xI in H.
    replace (2 * Z.pos p + 1 - 1) with (2 * Z.pos p) in H by lia.
    rewrite land_odd_even, Z.land_diag in H.
    pose proof (Pos2Z.is_pos p). lia.
  - rewrite Pos2Z.inj_xO in H.
    replace (2 * Z.pos p - 1) with (2 * (Z.pos p - 1) + 1) in H by lia.
    rewrite land_even_odd in H.
    pose proof (Pos2Z.is_pos p).
    destruct IH as (k & Hk & E); [lia|].
    exists (k + 1). split; [lia|].
    rewrite Pos2Z.inj_xO, E, Z.pow_add_r by lia. lia.
  - exists 0. split; [lia|reflexivity].
Qed.

Lemma land_pred_pow2 (k : Z) : 0 <= k -> Z.land (2 ^ k) (2 ^ k - 1) = 0.
Proof.
  intros Hk. replace (2 ^ k - 1) with (Z.ones k).
  - rewrite Z.land_ones by assumption. apply Z.mod_same.
    apply Z.pow_nonzero; lia.
  - rewrite Z.ones_equiv. lia.
Qed.

Lemma pow2b_true_iff (x : Z) :
  pow2b x = true <-> exists k, 0 <= k /\ x = 2 ^ k.
Proof.
  unfold pow2b. rewrite andb_true_iff, Z.ltb_lt, Z.eqb_eq. split.
  - intros [Hx H]. destruct x as [|p|p]; try lia.
    now apply land_pred_pos.
  - intros (k & Hk & ->). split.
    + apply Z.pow_pos_nonneg; lia.
    + now apply land_pred_pow2.
Qed.

Lemma only_bit_iff (x k : Z) : only_bit x k <-> 0 <= k /\ x = 2 ^ k.
Proof.
  unfold only_bit. split; intros [Hk H]; split; try assumption.
  - apply Z.bits_inj. intros i.
    rewrite H, Z.pow2_bits_eqb by assumption. apply Z.eqb_sym.
  - intros i. subst x. rewrite Z.pow2_bits_eqb by assumption. apply Z.eqb_sym.
Qed.

(** C5: [is_power_of_two x] is true exactly when [x > 0] and [x] has
    exactly one set bit, which is the same as [x] being a power of two; it
    is false on every [x <= 0], and it returns a boolean on every integer. *)
Theorem is_power_of_two_spec (x : Z) :
  (is_power_of_two x = Ok true <-> 0 < x /\ exists k, only_bit x k)
  /\ (is_power_of_two x = Ok true <-> exists k, 0 <= k /\ x = 2 ^ k)
  /\ (x <= 0 -> is_power_of_two x = Ok false)
  /\ (exists b, is_power_of_two x = Ok b).
Proof.
  rewrite is_power_of_two_eq.
  assert (E : Ok (pow2b x) = Ok true <-> pow2b x = true).
  { split; [intros [= ->]; reflexivity | intros ->; reflexivity]. }
  rewrite E, pow2b_true_iff. split; [|split; [|split]].
  - split.
    + intros (k & Hk & ->). split; [apply Z.pow_pos_nonneg; lia|].
      exists k. now apply only_bit_iff.
    + intros [_ (k & Hk)]. exists k. now apply only_bit_iff.
  - reflexivity.
  - intros Hx. unfold pow2b.
    destruct (0 <? x) eqn:L; [apply Z.ltb_lt in L; lia | reflexivity].
  - now exists (pow2b x).
Qed.

Lemma max_power_of_three_eq : MAX_POWER_OF_THREE = 3 ^ 40.
Proof. reflexivity. Qed.

Lemma pow3b_true_iff (x : Z) :
  pow3b x = true <-> 0 < x /\ (x | MAX_POWER_OF_THREE).
Proof.
  unfold pow3b. rewrite andb_true_iff, Z.ltb_lt, Z.eqb_eq. split.
  - intros [Hx H]. split; [assumption|]. apply Z.mod_divide; [lia|assumption].
  - intros [Hx H]. split; [assumption|]. apply Z.mod_divide; [lia|assumption].
Qed.

(** The positive divisors of a power of three are the smaller powers. *)
Lemma divisors_of_pow3 (n : nat) :
  forall x, 0 < x -> (x | 3 ^ Z.of_nat n) ->
  exists k, 0 <= k <= Z.of_nat n /\ x = 3 ^ k.
Proof.
  induction n as [|n IH]; intros x Hx Hd.
  - exists 0. split; [lia|]. change (3 ^ Z.of_nat 0) with 1 in Hd.
    apply Z.divide_1_r_nonneg in Hd; lia.
  - rewrite Nat2Z.inj_succ, Z.pow_succ_r in Hd by lia.
    destruct (Z.BoolSpec_divide 3 x) as [[y Hy]|Hn3].
    + subst x. rewrite (Z.mul_comm y 3) in Hd.
      apply Z.mul_divide_cancel_l in Hd; [|lia].
      destruct (IH y) as (k & Hk & ->); [lia|assumption|].
      exists (k + 1). split; [lia|]. rewrite Z.pow_add_r by lia. lia.
    + assert (Hrel : Z.gcd x 3 = 1).
      { rewrite Z.gcd_comm. now apply Z.coprime_prime_l; [exact Z.prime_3|]. }
      apply Z.gauss in Hd; [|assumption].
      destruct (IH x Hx Hd) as (k & Hk & E). exists k. split; [lia|assumption].
Qed.

Lemma pow3_divides_max (k : Z) : 0 <= k <= 40 -> (3 ^ k | MAX_POWER_OF_THREE).
Proof.
  intros Hk. rewrite max_power_of_three_eq.
  exists (3 ^ (40 - k)). rewrite <- Z.pow_add_r by lia. f_equal. lia.
Qed.

Lemma pow3b_true_pow (x : Z) :
  pow3b x = true <-> exists k, 0 <= k <= 40 /\ x = 3 ^ k.
Proof.
  rewrite pow3b_true_iff. split.
  - intros [Hx Hd]. rewrite max_power_of_three_eq in Hd.
    exact (divisors_of_pow3 40 x Hx Hd).
  - intros (k & Hk & ->). split.
    + apply Z.pow_pos_nonneg; lia.
    + now apply pow3_divides_max.
Qed.

Lemma ok_true_iff (b : bool) : Ok b = Ok true <-> b = true.
Proof. split; [intros [= ->]; reflexivity | intros ->; reflexivity]. Qed.

(** C6: [is_power_of_three x] is true exactly when [x > 0] and [x]
    divides 12157665459056928801, which is 3^40, the largest power of
    three below 2^64; so it is true exactly on 3^0, ..., 3^40, which for
    [x <= 3^40] are all the powers of three, and it is false on every
    [x <= 0]. *)
Theorem is_power_of_three_spec (x : Z) :
  (is_power_of_three x = Ok true <-> 0 < x /\ (x | 12157665459056928801))
  /\ (12157665459056928801 = 3 ^ 40 /\ 3 ^ 40 < 2 ^ 64 < 3 ^ 41)
  /\ (is_power_of_three x = Ok true <-> exists k, 0 <= k <= 40 /\ x = 3 ^ k)
  /\ (x <= 3 ^ 40 ->
      (is_power_of_three x = Ok true <-> exists k, 0 <= k /\ x = 3 ^ k))
  /\ (x <= 0 -> is_power_of_three x = Ok false).
Proof.
  rewrite is_power_of_three_eq, ok_true_iff.
  split; [|split; [|split; [|split]]].
  - apply pow3b_true_iff.
  - split; [reflexivity|]. split; reflexivity.
  - apply pow3b_true_pow.
  - intros Hx. rewrite pow3b_true_pow. split.
    + intros (k & Hk & E). exists k. split; [lia|assumption].
    + intros (k & Hk & E). exists k. split; [|assumption].
      split; [assumption|].
      destruct (Z_le_gt_dec k 40) as [|Hgt]; [assumption|exfalso].
      assert (3 ^ 41 <= 3 ^ k) by (apply Z.pow_le_mono_r; lia).
      assert (3 ^ 40 < 3 ^ 41) by reflexivity. lia.
  - intros Hx. unfold pow3b.
    destruct (0 <? x) eqn:L; [apply Z.ltb_lt in L; lia | reflexivity].
Qed.

(** C10: [is_power_of_three] is false on every power of three above 3^40,
    for instance on 3^41, although that integer is a power of three. *)
Theorem is_power_of_three_beyond_max :
  (forall k, 40 < k -> is_power_of_three (3 ^ k) = Ok false)
  /\ is_power_of_three (3 ^ 41) = Ok false
  /\ exists x, (exists k, 0 <= k /\ x = 3 ^ k) /\ is_power_of_three x = Ok false.
Proof.
  assert (H : forall k, 40 < k -> is_power_of_three (3 ^ k) = Ok false).
  { intros k Hk. rewrite is_power_of_three_eq. f_equal.
    destruct (pow3b (3 ^ k)) eqn:E; [exfalso|reflexivity].
    apply pow3b_true_pow in E. destruct E as (j & Hj & E).
    apply Z.pow_inj_r in E; lia. }
  split; [exact H|]. split; [apply H; lia|].
  exists (3 ^ 41). split; [exists 41; split; [lia|reflexivity] | apply H; lia].
Qed.

(** ** The trial-division loop, one iteration at a time *)

Section LoopCases.

Variables (number factor : Z).

(** The four ways an iteration can go. *)
Lemma loop_cases :
  number <= 1
  \/ (1 < number /\ factor = 0)
  \/ (1 < number /\ factor <> 0 /\ number mod factor = 0)
  \/ (1 < number /\ factor <> 0 /\ number mod factor <> 0).
Proof.
  destruct (Z_le_gt_dec number 1) as [H|H]; [now left|right].
  destruct (Z.eq_dec factor 0) as [Hf|Hf]; [left; lia|right].
  destruct (Z.eq_dec (number mod factor) 0) as [Hm|Hm]; [left|right]; lia.
Qed.

Lemma guard_false : number <= 1 -> (number >? 1) = false.
Proof. intros H. rewrite Z.gtb_ltb. apply Z.ltb_ge. lia. Qed.

Lemma guard_true : 1 < number -> (number >? 1) = true.
Proof. intros H. rewrite Z.gtb_ltb. apply Z.ltb_lt. lia. Qed.

Lemma py_mod_ok : factor <> 0 -> py_mod number factor = Ok (number mod factor).
Proof.
  intros H. unfold py_mod.
  destruct (factor =? 0) eqn:E; [apply Z.eqb_eq in E; contradiction|reflexivity].
Qed.

Lemma py_floordiv_ok :
  factor <> 0 -> py_floordiv number factor = Ok (number / factor).
Proof.
  intros H. unfold py_floordiv.
  destruct (factor =? 0) eqn:E; [apply Z.eqb_eq in E; contradiction|reflexivity].
Qed.

Variable fuel : nat.

Lemma generator_stop :
  number <= 1 -> generator_while (S fuel) number factor = Done.
Proof. intros H. cbn [generator_while]. now rewrite guard_false. Qed.

Lemma generator_zero :
  1 < number -> factor = 0 ->
  generator_while (S fuel) number factor = Throw ZeroDivisionError.
Proof.
  intros H ->. cbn [generator_while]. now rewrite guard_true.
Qed.

Lemma generator_emit :
  1 < number -> factor <> 0 -> number mod factor = 0 ->
  generator_while (S fuel) number factor
  = Yield factor (generator_while fuel (number / factor) factor).
Proof.
  intros H Hf Hm. cbn [generator_while].
  rewrite guard_true, py_mod_ok, py_floordiv_ok, Hm by assumption.
  reflexivity.
Qed.

Lemma generator_skip :
  1 < number -> factor <> 0 -> number mod factor <> 0 ->
  generator_while (S fuel) number factor
  = generator_while fuel number (next_factor factor).
Proof.
  intros H Hf Hm. cbn [generator_while].
  rewrite guard_true, py_mod_ok by assumption. cbn [gen_try].
  destruct (number mod factor =? 0) eqn:E;
    [apply Z.eqb_eq in E; contradiction|reflexivity].
Qed.

Lemma next_stop :
  number <= 1 ->
  PrimeFactors.__next__ (S fuel)
    {| PrimeFactors.number := number; PrimeFactors.factor := factor |}
  = Raise StopIteration.
Proof.
  intros H. cbn [PrimeFactors.__next__ PrimeFactors.number].
  now rewrite guard_false.
Qed.

Lemma next_zero :
  1 < number -> factor = 0 ->
  PrimeFactors.__next__ (S fuel)
    {| PrimeFactors.number := number; PrimeFactors.factor := factor |}
  = Raise ZeroDivisionError.
Proof.
  intros H ->. cbn [PrimeFactors.__next__ PrimeFactors.number].
  now rewrite guard_true.
Qed.

Lemma next_emit :
  1 < number -> factor <> 0 -> number mod factor = 0 ->
  PrimeFactors.__next__ (S fuel)
    {| PrimeFactors.number := number; PrimeFactors.factor := factor |}
  = Ok (factor,
        {| PrimeFactors.number := number / factor;
           PrimeFactors.factor := factor |}).
Proof.
  intros H Hf Hm.
  cbn [PrimeFactors.__next__ PrimeFactors.number PrimeFactors.factor].
  rewrite guard_true, py_mod_ok, py_floordiv_ok, Hm by assumption.
  reflexivity.
Qed.

Lemma next_skip :
  1 < number -> factor <> 0 -> number mod factor <> 0 ->
  PrimeFactors.__next__ (S fuel)
    {| PrimeFactors.number := number; PrimeFactors.factor := factor |}
  = PrimeFactors.__next__ fuel
      {| PrimeFactors.number := number;
         PrimeFactors.factor := next_factor factor |}.
Proof.
  intros H Hf Hm.
  cbn [PrimeFactors.__next__ PrimeFactors.number PrimeFactors.factor].
  rewrite guard_true, py_mod_ok by assumption. cbn [bind].
  destruct (number mod factor =? 0) eqn:E;
    [apply Z.eqb_eq in E; contradiction|reflexivity].
Qed.

Context {St : Type} (callback : Z -> St -> result St) (st : St).

Lemma callback_stop :
  number <= 1 ->
  callback_while (S fuel) callback number factor st = Ok (number, factor, st).
Proof. intros H. cbn [callback_while]. now rewrite guard_false. Qed.

Lemma callback_zero :
  1 < number -> factor = 0 ->
  callback_while (S fuel) callback number factor st = Raise ZeroDivisionError.
Proof. intros H ->. cbn [callback_while]. now rewrite guard_true. Qed.

Lemma callback_emit :
  1 < number -> factor <> 0 -> number mod factor = 0 ->
  callback_while (S fuel) callback number factor st
  = st' <- callback factor st ;;
    callback_while fuel callback (number / factor) factor st'.
Proof.
  intros H Hf Hm. cbn [callback_while].
  rewrite guard_true, py_mod_ok, py_floordiv_ok, Hm by assumption.
  reflexivity.
Qed.

Lemma callback_skip :
  1 < number -> factor <> 0 -> number mod factor <> 0 ->
  callback_while (S fuel) callback number factor st
  = callback_while fuel callback number (next_factor factor) st.
Proof.
  intros H Hf Hm. cbn [callback_while].
  rewrite guard_true, py_mod_ok by assumption. cbn [bind].
  destruct (number mod factor =? 0) eqn:E;
    [apply Z.eqb_eq in E; contradiction|reflexivity].
Qed.

End LoopCases.

(** ** The loop invariant and termination *)

Lemma trial_inv_init (n : Z) : trial_inv n 2.
Proof. repeat split; [lia|now left|intros d Hd; lia]. Qed.

Lemma trial_inv_le (number factor : Z) :
  trial_inv number factor -> 1 < number -> factor <= number.
Proof.
  intros (_ & _ & H) Hn.
  destruct (Z_le_gt_dec factor number) as [|Hgt]; [assumption|exfalso].
  apply (H number); [lia|apply Z.divide_refl].
Qed.

Lemma trial_inv_emit (number factor : Z) :
  trial_inv number factor -> number mod factor = 0 ->
  trial_inv (number / factor) factor.
Proof.
  intros (Hf & Hp & H) Hm. repeat split; try assumption.
  intros d Hd Hdiv. apply (H d Hd).
  apply Z.divide_trans with (number / factor); [assumption|].
  exists factor. apply Z.div_exact in Hm; lia.
Qed.

Lemma trial_inv_skip (number factor : Z) :
  trial_inv number factor -> number mod factor <> 0 ->
  trial_inv number (next_factor factor).
Proof.
  intros (Hf & Hp & H) Hm. unfold next_factor.
  assert (Hnd : ~ (factor | number)).
  { intros Hd. apply Hm. apply Z.mod_divide; [lia|assumption]. }
  destruct (factor =? 2) eqn:E.
  - apply Z.eqb_eq in E. subst factor. repeat split; [lia|now right|].
    intros d Hd. replace d with 2 by lia. assumption.
  - apply Z.eqb_neq in E. destruct Hp as [|Hodd]; [contradiction|].
    apply Z.odd_spec in Hodd. destruct Hodd as [m Hm2].
    repeat split; [lia| |].
    + right. apply Z.odd_spec. exists (m + 1). lia.
    + intros d Hd Hdiv.
      destruct (Z_lt_ge_dec d factor) as [Hlt|Hge]; [apply (H d); [lia|assumption]|].
      destruct (Z.eq_dec d factor) as [->|Hne]; [contradiction|].
      assert (Hd1 : d = 2 * (m + 1)) by lia.
      apply (H 2); [lia|].
      apply Z.divide_trans with d; [exists (m + 1); lia|assumption].
Qed.

Lemma div_lt_self (number factor : Z) :
  1 < number -> 2 <= factor -> number / factor < number.
Proof. intros Hn Hf. apply Z.div_lt; lia. Qed.

(** With the invariant, a bound on the iterations left is
    [2 * number - factor]; a loop given more than that stops by itself. *)
Lemma generator_while_total (fuel : nat) :
  forall number factor,
    trial_inv number factor ->
    2 * number - factor < Z.of_nat fuel -> (0 < fuel)%nat ->
    exists l, generator_while fuel number factor = gen_of_list l.
Proof.
  induction fuel as [|fuel IH]; intros number factor Hinv Hm Hpos; [lia|].
  destruct (loop_cases number factor)
    as [H|[[H Hf]|[(H & Hf & Hd)|(H & Hf & Hd)]]].
  - exists []. now apply generator_stop.
  - destruct Hinv as (Hf2 & _). lia.
  - pose proof (trial_inv_le _ _ Hinv H) as Hle.
    pose proof (div_lt_self number factor H ltac:(destruct Hinv; lia)) as Hlt.
    destruct (IH (number / factor) factor) as [l Hl].
    + now apply trial_inv_emit.
    + lia.
    + lia.
    + exists (factor :: l). rewrite generator_emit by assumption.
      cbn [gen_of_list]. now rewrite Hl.
  - pose proof (trial_inv_le _ _ Hinv H) as Hle.
    assert (Hnf : factor < next_factor factor).
    { unfold next_factor. destruct (factor =? 2); lia. }
    destruct (IH number (next_factor factor)) as [l Hl].
    + now apply trial_inv_skip.
    + lia.
    + lia.
    + exists l. now rewrite generator_skip.
Qed.

(** A loop that stopped by itself stops the same way on a larger bound. *)
Lemma generator_while_mono (fuel : nat) :
  forall number factor l,
    generator_while fuel number factor = gen_of_list l ->
    forall fuel', (fuel <= fuel')%nat ->
    generator_while fuel' number factor = gen_of_list l.
Proof.
  induction fuel as [|fuel IH]; intros number factor l Hl fuel' Hle.
  - destruct l; discriminate Hl.
  - destruct fuel' as [|fuel']; [lia|].
    destruct (loop_cases number factor)
      as [H|[[H Hf]|[(H & Hf & Hd)|(H & Hf & Hd)]]].
    + rewrite generator_stop in * by assumption. assumption.
    + rewrite generator_zero in Hl by assumption. destruct l; discriminate Hl.
    + rewrite generator_emit in * by assumption.
      destruct l as [|x l]; [discriminate Hl|]. cbn [gen_of_list] in *.
      injection Hl as -> Hl. f_equal. apply IH; [assumption|lia].
    + rewrite generator_skip in * by assumption. apply IH; [assumption|lia].
Qed.

Lemma sorted_cons_lower (x : Z) (l : list Z) :
  Forall (fun y => x <= y) l -> Sorted Z.le l -> Sorted Z.le (x :: l).
Proof.
  intros Hall Hs. constructor; [assumption|].
  destruct Hall; constructor; assumption.
Qed.

(** What a finished run of the loop has yielded. *)
Lemma generator_while_sound (fuel : nat) :
  forall number factor l,
    2 <= factor ->
    generator_while fuel number factor = gen_of_list l ->
    Forall (fun x => factor <= x) l
    /\ Sorted Z.le l
    /\ (1 <= number -> product l = number)
    /\ (number <= 1 -> l = [])
    /\ (1 < number -> (1 <= length l)%nat)
    /\ (length l < fuel)%nat.
Proof.
  induction fuel as [|fuel IH]; intros number factor l Hf2 Hl.
  - destruct l; discriminate Hl.
  - destruct (loop_cases number factor)
      as [H|[[H Hf]|[(H & Hf & Hd)|(H & Hf & Hd)]]].
    + rewrite generator_stop in Hl by assumption.
      destruct l; [|discriminate Hl].
      split; [constructor|]. split; [constructor|].
      repeat split; cbn; intros; lia.
    + lia.
    + rewrite generator_emit in Hl by assumption.
      destruct l as [|x l]; [discriminate Hl|]. cbn [gen_of_list] in Hl.
      injection Hl as Hx Hl. subst x.
      destruct (IH _ _ _ Hf2 Hl) as (Hall & Hs & Hp & _ & _ & Hlen).
      assert (Hq : number = factor * (number / factor))
        by (apply Z.div_exact; lia).
      assert (Hq1 : 1 <= number / factor) by nia.
      repeat split.
      * constructor; [lia|assumption].
      * now apply sorted_cons_lower.
      * intros _. cbn [product fold_right]. fold (product l).
        rewrite Hp by assumption. lia.
      * intros; lia.
      * intros _. cbn [length]. lia.
      * cbn [length]. lia.
    + rewrite generator_skip in Hl by assumption.
      assert (Hnf : factor < next_factor factor).
      { unfold next_factor. destruct (factor =? 2); lia. }
      destruct (IH number (next_factor factor) l ltac:(lia) Hl)
        as (Hall & Hs & Hp & Hn & Hne & Hlen).
      repeat split; try assumption.
      * eapply Forall_impl; [|exact Hall]. cbn; intros; lia.
      * lia.
Qed.

Lemma yields_of_list {A : Type} (l : list A) : yields (gen_of_list l) = l.
Proof. induction l as [|x l IH]; cbn; [reflexivity|now rewrite IH]. Qed.

Lemma enough_for_le (v b : Z) : v <= b -> (enough_for v <= enough_for b)%nat.
Proof. unfold enough_for. lia. Qed.

(** The generator on a sufficient bound yields the list [factorize n] and
    returns. *)
Lemma prime_factors_generator_factorize (fuel : nat) (n : Z) :
  (enough_for n <= fuel)%nat ->
  prime_factors_generator fuel n = gen_of_list (factorize n).
Proof.
  intros Hfuel. unfold factorize, prime_factors_generator.
  destruct (generator_while_total (enough_for n) n 2 (trial_inv_init n))
    as [l Hl]; [unfold enough_for; lia..|].
  rewrite Hl, yields_of_list.
  now apply generator_while_mono with (enough_for n).
Qed.

Lemma factorize_sound (n : Z) :
  Forall (fun x => 2 <= x) (factorize n)
  /\ Sorted Z.le (factorize n)
  /\ (1 <= n -> product (factorize n) = n)
  /\ (n <= 1 -> factorize n = [])
  /\ (1 < n -> (1 <= length (factorize n))%nat)
  /\ (length (factorize n) < enough_for n)%nat.
Proof.
  apply generator_while_sound with (number := n); [lia|].
  apply (prime_factors_generator_factorize (enough_for n) n). lia.
Qed.

(** ** The three forms of the factorizer agree *)

Lemma for_gen_of_list {A St : Type} (body : A -> St -> result St) (l : list A) :
  forall st, for_gen (gen_of_list l) body st = for_list l body st.
Proof.
  induction l as [|x l IH]; intros st; cbn; [reflexivity|].
  destruct (body x st); cbn; auto.
Qed.

(** The callback form calls [callback] on what the generator form yields,
    in the same order, and fails the same way. *)
Lemma callback_while_trace {St : Type} (callback : Z -> St -> result St)
  (fuel : nat) :
  forall number factor st,
    (r <- callback_while fuel callback number factor st ;; Ok (snd r))
    = for_gen (generator_while fuel number factor) callback st.
Proof.
  induction fuel as [|fuel IH]; intros number factor st; [reflexivity|].
  destruct (loop_cases number factor)
    as [H|[[H Hf]|[(H & Hf & Hd)|(H & Hf & Hd)]]].
  - now rewrite callback_stop, generator_stop.
  - now rewrite callback_zero, generator_zero.
  - rewrite callback_emit, generator_emit by assumption. cbn [for_gen].
    destruct (callback factor st) as [st'| |]; cbn [bind]; auto.
  - rewrite callback_skip, generator_skip by assumption. apply IH.
Qed.

Lemma prime_factors_callback_trace {St : Type} (fuel : nat) (number : Z)
  (callback : Z -> St -> result St) (st : St) :
  prime_factors_callback fuel number callback st
  = for_gen (prime_factors_generator fuel number) callback st.
Proof.
  unfold prime_factors_callback, prime_factors_generator.
  rewrite <- callback_while_trace.
  destruct (callback_while fuel callback number 2 st) as [[[n f] s]| |];
    reflexivity.
Qed.

(** The remainder left by a finished loop. *)
Lemma callback_while_final {St : Type} (callback : Z -> St -> result St)
  (fuel : nat) :
  forall number factor st number' factor' st',
    callback_while fuel callback number factor st = Ok (number', factor', st') ->
    1 <= number -> 1 <= factor -> number' = 1.
Proof.
  induction fuel as [|fuel IH]; intros number factor st n' f' st' Hr Hn Hf1;
    [discriminate Hr|].
  destruct (loop_cases number factor)
    as [H|[[H Hf]|[(H & Hf & Hd)|(H & Hf & Hd)]]].
  - rewrite callback_stop in Hr by assumption. injection Hr as <- _ _. lia.
  - lia.
  - rewrite callback_emit in Hr by assumption.
    destruct (callback factor st) as [s1| |]; cbn [bind] in Hr;
      try discriminate Hr.
    apply IH in Hr; [assumption| |assumption].
    assert (number = factor * (number / factor)) by (apply Z.div_exact; lia).
    nia.
  - rewrite callback_skip in Hr by assumption.
    apply IH in Hr; [assumption|assumption|].
    unfold next_factor. destruct (factor =? 2); lia.
Qed.

(** One call of [__next__] against the rest of the generator's run. *)
Lemma next_of_trace (fuel : nat) :
  forall number factor l,
    generator_while fuel number factor = gen_of_list l ->
    match l with
    | [] =>
        PrimeFactors.__next__ fuel
          {| PrimeFactors.number := number; PrimeFactors.factor := factor |}
        = Raise StopIteration
    | x :: l' =>
        exists self',
          PrimeFactors.__next__ fuel
            {| PrimeFactors.number := number; PrimeFactors.factor := factor |}
          = Ok (x, self')
          /\ generator_while fuel (PrimeFactors.number self')
               (PrimeFactors.factor self') = gen_of_list l'
    end.
Proof.
  induction fuel as [|fuel IH]; intros number factor l Hl.
  - destruct l; discriminate Hl.
  - destruct (loop_cases number factor)
      as [H|[[H Hf]|[(H & Hf & Hd)|(H & Hf & Hd)]]].
    + rewrite generator_stop in Hl by assumption.
      destruct l; [|discriminate Hl]. now apply next_stop.
    + rewrite generator_zero in Hl by assumption. destruct l; discriminate Hl.
    + rewrite generator_emit in Hl by assumption.
      destruct l as [|x l]; [discriminate Hl|]. cbn [gen_of_list] in Hl.
      injection Hl as Hx Hl. subst x.
      eexists. split; [now apply next_emit|].
      cbn [PrimeFactors.number PrimeFactors.factor].
      apply generator_while_mono with fuel; [assumption|lia].
    + rewrite generator_skip in Hl by assumption.
      rewrite next_skip by assumption.
      specialize (IH _ _ _ Hl). destruct l as [|x l]; [assumption|].
      destruct IH as (self' & Hnext & Hrest).
      exists self'. split; [assumption|].
      apply generator_while_mono with fuel; [assumption|lia].
Qed.

(** Draining an instance with a [for] statement. *)
Lemma for_in_trace {St : Type} (body : Z -> St -> result St) (fuel : nat)
  (l : list Z) :
  forall steps self st,
    generator_while fuel (PrimeFactors.number self) (PrimeFactors.factor self)
    = gen_of_list l ->
    (length l < steps)%nat ->
    PrimeFactors.for_in fuel steps self body st = for_list l body st.
Proof.
  induction l as [|x l IH]; intros steps self st Hl Hlen;
    (destruct steps as [|steps]; [cbn in Hlen; lia|]);
    destruct self as [number factor]; cbn [PrimeFactors.number PrimeFactors.factor] in Hl;
    pose proof (next_of_trace fuel _ _ _ Hl) as Hn; cbn [PrimeFactors.for_in].
  - now rewrite Hn.
  - destruct Hn as (self' & Hn & Hrest). rewrite Hn. cbn [for_list].
    destruct (body x st) as [st'| |]; cbn [bind]; try reflexivity.
    apply IH; [assumption|cbn in Hlen; lia].
Qed.

Lemma for_in_factorize {St : Type} (body : Z -> St -> result St) (fuel : nat)
  (n : Z) (st : St) :
  (enough_for n <= fuel)%nat ->
  PrimeFactors.for_in fuel fuel (PrimeFactors.__init__ n) body st
  = for_list (factorize n) body st.
Proof.
  intros Hfuel. apply for_in_trace.
  - now apply prime_factors_generator_factorize.
  - pose proof (factorize_sound n) as (_ & _ & _ & _ & _ & H). lia.
Qed.

(** ** The stages on lists *)

Lemma total_app (l1 l2 : list Z) : total (l1 ++ l2) = total l1 + total l2.
Proof.
  induction l1 as [|x l1 IH]; cbn; [reflexivity|].
  fold (total (l1 ++ l2)). fold (total l1). lia.
Qed.

Lemma fold_left_add_total (l : list Z) :
  forall a, fold_left Z.add l a = a + total l.
Proof.
  induction l as [|x l IH]; intros a; cbn; [lia|].
  fold (total l). rewrite IH. lia.
Qed.

Lemma passes_filters_eq (value : Z) :
  passes_filters value = Ok (negb (pow2b value) && negb (pow3b value)).
Proof.
  unfold passes_filters.
  rewrite is_power_of_two_eq, is_power_of_three_eq. cbn [bind].
  destruct (pow2b value); reflexivity.
Qed.

Lemma survivors_filter_filter (l : list Z) :
  filter (fun x => negb (pow3b x)) (filter (fun x => negb (pow2b x)) l)
  = survivors l.
Proof.
  unfold survivors. induction l as [|x l IH]; [reflexivity|]. cbn [filter].
  destruct (pow2b x); cbn [negb andb filter]; rewrite IH; reflexivity.
Qed.

Lemma for_list_record (l : list Z) :
  forall s c,
    for_list l record_factor (s, c) = Ok (s + total l, c + Z.of_nat (length l)).
Proof.
  induction l as [|x l IH]; intros s c.
  - cbn. f_equal. f_equal; lia.
  - cbn [for_list record_factor bind]. rewrite IH. cbn [total fold_right length].
    fold (total l). f_equal. f_equal; lia.
Qed.

Lemma for_list_append (l : list Z) :
  forall acc,
    for_list l (fun x acc => Ok (acc ++ [x])) acc = Ok (acc ++ l).
Proof.
  induction l as [|x l IH]; intros acc; cbn [for_list bind].
  - now rewrite app_nil_r.
  - rewrite IH, <- app_assoc. reflexivity.
Qed.

Lemma yield_all_of_list {A : Type} (l : list A) (k : gen A) :
  yields (yield_all (gen_of_list l) k) = l ++ yields k.
Proof. induction l as [|x l IH]; cbn; [reflexivity|now rewrite IH]. Qed.

Lemma yield_all_lists {A : Type} (l1 l2 : list A) :
  yield_all (gen_of_list l1) (gen_of_list l2) = gen_of_list (l1 ++ l2).
Proof. induction l1 as [|x l1 IH]; cbn; [reflexivity|now rewrite IH]. Qed.

Lemma py_filter_of_list {A : Type} (function : A -> result bool)
  (keep : A -> bool) (l : list A) :
  (forall x, function x = Ok (keep x)) ->
  py_filter function (gen_of_list l) = gen_of_list (filter keep l).
Proof.
  intros H. induction l as [|x l IH]; [reflexivity|].
  cbn [gen_of_list py_filter filter]. rewrite H. cbn [gen_try].
  destruct (keep x); cbn [gen_of_list]; now rewrite IH.
Qed.

Lemma filter_async_of_list (predicate : Z -> result bool) (holds : Z -> bool)
  (l : list Z) :
  (forall x, predicate x = Ok (holds x)) ->
  filter_async (gen_of_list l) predicate
  = gen_of_list (filter (fun x => negb (holds x)) l).
Proof.
  intros H. induction l as [|x l IH]; [reflexivity|].
  cbn [gen_of_list filter_async filter]. rewrite H. cbn [gen_try].
  destruct (negb (holds x)); cbn [gen_of_list]; now rewrite IH.
Qed.

Lemma comprehension_if_not_eq (predicate : Z -> result bool)
  (holds : Z -> bool) (l : list Z) :
  (forall x, predicate x = Ok (holds x)) ->
  comprehension_if_not predicate l = Ok (filter (fun x => negb (holds x)) l).
Proof.
  intros H. induction l as [|x l IH]; [reflexivity|].
  cbn [comprehension_if_not filter]. rewrite H, IH. reflexivity.
Qed.

Lemma py_reduce_of_list {A B : Type} (function : B -> A -> B) (l : list A) :
  forall initial,
    py_reduce function (gen_of_list l) initial = Ok (fold_left function l initial).
Proof. induction l as [|x l IH]; intros initial; cbn; auto. Qed.

(** The values whose loops the bound [fuel] covers. *)
Lemma covered_range (a b : Z) (fuel : nat) :
  (enough_for b <= fuel)%nat ->
  Forall (fun v => (enough_for v <= fuel)%nat) (py_range a (b + 1)).
Proof.
  intros Hfuel. apply Forall_forall. intros v Hv.
  unfold py_range in Hv. apply in_map_iff in Hv.
  destruct Hv as (i & <- & Hi). apply in_seq in Hi.
  pose proof (enough_for_le (a + Z.of_nat i) b). lia.
Qed.

Lemma covered_filter (keep : Z -> bool) (fuel : nat) (l : list Z) :
  Forall (fun v => (enough_for v <= fuel)%nat) l ->
  Forall (fun v => (enough_for v <= fuel)%nat) (filter keep l).
Proof.
  intros H. apply Forall_forall. intros v Hv. apply filter_In in Hv.
  rewrite Forall_forall in H. now apply H.
Qed.

(** ** Each strategy computes the expected pair *)

Section Strategies.

Variable fuel : nat.

Local Notation "'covered' l" :=
  (Forall (fun v => (enough_for v <= fuel)%nat) l) (at level 10, l at level 9).

Lemma survivors_cons (v : Z) (vals : list Z) :
  survivors (v :: vals)
  = if negb (pow2b v) && negb (pow3b v) then v :: survivors vals
    else survivors vals.
Proof. reflexivity. Qed.

Lemma callbacks_loop (vals : list Z) :
  covered vals ->
  forall s c,
    for_list vals
      (fun value st =>
         keep <- passes_filters value ;;
         if keep then prime_factors_callback fuel value record_factor st
         else Ok st)
      (s, c)
    = Ok (s + total (flat_map factorize (survivors vals)),
          c + Z.of_nat (length (flat_map factorize (survivors vals)))).
Proof.
  induction 1 as [|v vals Hv Hvals IH]; intros s c.
  - cbn. f_equal. f_equal; lia.
  - cbn [for_list]. rewrite passes_filters_eq, survivors_cons. cbn [bind].
    destruct (negb (pow2b v) && negb (pow3b v)).
    + rewrite prime_factors_callback_trace,
        prime_factors_generator_factorize, for_gen_of_list, for_list_record
        by assumption.
      cbn [bind flat_map]. rewrite IH, total_app, length_app, Nat2Z.inj_add.
      f_equal. f_equal; lia.
    + cbn [bind]. apply IH.
Qed.

Lemma iterators_loop (vals : list Z) :
  covered vals ->
  forall s c,
    for_list vals
      (fun value st =>
         keep <- passes_filters value ;;
         if keep then
           PrimeFactors.for_in fuel fuel (PrimeFactors.__init__ value)
             (fun factor '(sum_factors, count) =>
                Ok (sum_factors + factor, count + 1))
             st
         else Ok st)
      (s, c)
    = Ok (s + total (flat_map factorize (survivors vals)),
          c + Z.of_nat (length (flat_map factorize (survivors vals)))).
Proof.
  induction 1 as [|v vals Hv Hvals IH]; intros s c.
  - cbn. f_equal. f_equal; lia.
  - cbn [for_list]. rewrite passes_filters_eq, survivors_cons. cbn [bind].
    destruct (negb (pow2b v) && negb (pow3b v)).
    + rewrite for_in_factorize by assumption.
      change (fun (factor : Z) '(sum_factors, count) =>
                Ok (sum_factors + factor, count + 1)) with record_factor.
      rewrite for_list_record.
      cbn [bind flat_map]. rewrite IH, total_app, length_app, Nat2Z.inj_add.
      f_equal. f_equal; lia.
    + cbn [bind]. apply IH.
Qed.

Lemma chain_of_generators (vals : list Z) :
  covered vals ->
  chain_from_iterable
    (py_map (prime_factors_generator fuel) (gen_of_list vals))
  = gen_of_list (flat_map factorize vals).
Proof.
  induction 1 as [|v vals Hv Hvals IH]; [reflexivity|].
  cbn [gen_of_list py_map chain_from_iterable flat_map].
  rewrite IH, prime_factors_generator_factorize by assumption.
  apply yield_all_lists.
Qed.

Lemma prime_factors_async_of_list (vals : list Z) :
  covered vals ->
  prime_factors_async fuel (gen_of_list vals)
  = gen_of_list (flat_map factorize vals).
Proof.
  induction 1 as [|v vals Hv Hvals IH]; [reflexivity|].
  cbn [gen_of_list prime_factors_async flat_map].
  rewrite IH, prime_factors_generator_factorize by assumption.
  apply yield_all_lists.
Qed.

Lemma prime_factors_stage (data : list Z) :
  covered data ->
  forall result_,
    for_list data
      (fun val result_ => extend_from fuel result_ (PrimeFactors.__init__ val))
      result_
    = Ok (result_ ++ flat_map factorize data).
Proof.
  induction 1 as [|v data Hv Hdata IH]; intros result_.
  - cbn. now rewrite app_nil_r.
  - cbn [for_list flat_map]. unfold extend_from at 1.
    rewrite for_in_factorize, for_list_append by assumption.
    cbn [bind]. rewrite IH, app_assoc. reflexivity.
Qed.

Lemma fold_pairs (l : list Z) :
  forall s c,
    fold_left (fun (acc : Z * Z) factor => (fst acc + factor, snd acc + 1)) l
      (s, c)
    = (s + total l, c + Z.of_nat (length l)).
Proof.
  induction l as [|x l IH]; intros s c.
  - cbn. f_equal; lia.
  - cbn [fold_left fst snd]. rewrite IH. cbn [total fold_right length].
    fold (total l). f_equal; lia.
Qed.

Lemma expand_and_reduce_of_list (vals : list Z) :
  covered vals ->
  expand_and_reduce fuel (gen_of_list vals)
  = Ok (total (flat_map factorize vals),
        Z.of_nat (length (flat_map factorize vals))).
Proof.
  intros H. unfold expand_and_reduce.
  rewrite chain_of_generators, py_reduce_of_list, fold_pairs by assumption.
  reflexivity.
Qed.

Lemma negated_two (x : Z) : not_power_of_two x = Ok (negb (pow2b x)).
Proof. unfold not_power_of_two. now rewrite is_power_of_two_eq. Qed.

Lemma negated_three (x : Z) : not_power_of_three x = Ok (negb (pow3b x)).
Proof. unfold not_power_of_three. now rewrite is_power_of_three_eq. Qed.

Variables (a b : Z).
Hypothesis Hfuel : (enough_for b <= fuel)%nat.

Lemma callbacks_expected : pipeline_callbacks_over a b fuel = Ok (expected_pair a b).
Proof.
  unfold pipeline_callbacks_over, expected_pair.
  rewrite callbacks_loop by now apply covered_range. reflexivity.
Qed.

Lemma iterators_expected : pipeline_iterators_over a b fuel = Ok (expected_pair a b).
Proof.
  unfold pipeline_iterators_over, expected_pair.
  rewrite iterators_loop by now apply covered_range. reflexivity.
Qed.

Lemma generators_expected : pipeline_generators_over a b fuel = Ok (expected_pair a b).
Proof.
  unfold pipeline_generators_over, expected_pair. cbv zeta.
  rewrite (py_filter_of_list _ _ _ negated_two),
    (py_filter_of_list _ _ _ negated_three), survivors_filter_filter.
  apply expand_and_reduce_of_list. unfold survivors.
  now apply covered_filter, covered_range.
Qed.

Lemma dynamic_dispatch_expected :
  pipeline_dynamic_dispatch_over a b fuel = Ok (expected_pair a b).
Proof.
  unfold pipeline_dynamic_dispatch_over, run_stages, expected_pair.
  cbn [for_list process bind app].
  rewrite (comprehension_if_not_eq _ _ _ is_power_of_two_eq). cbn [bind].
  rewrite (comprehension_if_not_eq _ _ _ is_power_of_three_eq). cbn [bind].
  rewrite survivors_filter_filter, prime_factors_stage
    by (unfold survivors; now apply covered_filter, covered_range).
  cbn [bind app]. now rewrite fold_left_add_total.
Qed.

Lemma async_expected : pipeline_async_over a b fuel = Ok (expected_pair a b).
Proof.
  unfold pipeline_async_over, for_range_async, expected_pair. cbv zeta.
  rewrite (filter_async_of_list _ _ _ is_power_of_two_eq),
    (filter_async_of_list _ _ _ is_power_of_three_eq),
    survivors_filter_filter, prime_factors_async_of_list
    by (unfold survivors; now apply covered_filter, covered_range).
  rewrite for_gen_of_list.
  change (fun (factor : Z) '(sum_factors, count) =>
            Ok (sum_factors + factor, count + 1)) with record_factor.
  now rewrite for_list_record.
Qed.

End Strategies.

(** ** The pipeline claims *)

Lemma expected_pair_canonical :
  expected_pair PIPE_START PIPE_END = (PIPE_EXPECTED_SUM, PIPE_EXPECTED_COUNT).
Proof. vm_compute. reflexivity. Qed.

(** C1: run over the canonical range [3, 49], each of the five entry points
    returns exactly the pair (645, 84), on every bound of at least 99
    iterations for each of its loops. *)
Theorem pipelines_canonical (fuel : nat) :
  (99 <= fuel)%nat ->
  (PIPE_START, PIPE_END) = (3, 49)
  /\ pipeline_callbacks fuel = Ok (645, 84)
  /\ pipeline_generators fuel = Ok (645, 84)
  /\ pipeline_iterators fuel = Ok (645, 84)
  /\ pipeline_dynamic_dispatch fuel = Ok (645, 84)
  /\ pipeline_async fuel = Ok (645, 84).
Proof.
  intros Hfuel.
  assert (H : (enough_for PIPE_END <= fuel)%nat) by exact Hfuel.
  unfold pipeline_callbacks, pipeline_generators, pipeline_iterators,
    pipeline_dynamic_dispatch, pipeline_async.
  rewrite callbacks_expected, generators_expected, iterators_expected,
    dynamic_dispatch_expected, async_expected by exact H.
  rewrite expected_pair_canonical. repeat split.
Qed.

Lemma pipelines_canonical_witness :
  pipeline_callbacks 99 = Ok (645, 84) /\ pipeline_async 99 = Ok (645, 84).
Proof.
  destruct (pipelines_canonical 99 (le_n 99)) as (_ & Hc & _ & _ & _ & Ha).
  split; [exact Hc | exact Ha].
Defined.

(** C2: with any range [a, b], 1 <= a <= b, in the place of the two
    constants, the five strategies return the same pair, on every bound
    that covers the loops run on the values up to [b]. *)
Theorem pipelines_agree (a b : Z) (fuel : nat) :
  1 <= a <= b ->
  (enough_for b <= fuel)%nat ->
  exists pair,
    pipeline_callbacks_over a b fuel = Ok pair
    /\ pipeline_generators_over a b fuel = Ok pair
    /\ pipeline_iterators_over a b fuel = Ok pair
    /\ pipeline_dynamic_dispatch_over a b fuel = Ok pair
    /\ pipeline_async_over a b fuel = Ok pair.
Proof.
  intros _ Hfuel. exists (expected_pair a b).
  rewrite callbacks_expected, generators_expected, iterators_expected,
    dynamic_dispatch_expected, async_expected by exact Hfuel.
  repeat split.
Qed.

Lemma pipelines_agree_witness :
  exists pair,
    pipeline_callbacks_over 1 10 21 = Ok pair
    /\ pipeline_generators_over 1 10 21 = Ok pair
    /\ pipeline_iterators_over 1 10 21 = Ok pair
    /\ pipeline_dynamic_dispatch_over 1 10 21 = Ok pair
    /\ pipeline_async_over 1 10 21 = Ok pair.
Proof.
  apply (pipelines_agree 1 10 21); [lia | vm_compute; lia].
Defined.

(** ** The factorizer claims *)

(** C3: for every integer n > 1 the generator yields a non-decreasing
    sequence of at least one factor whose product is n; for n = 1 it
    yields nothing; the callback form passes the same sequence to its
    callback and a [PrimeFactors] instance returns the same sequence from
    its successive [__next__] calls. *)
Theorem factor_sequence_correct (n : Z) (fuel : nat) :
  1 <= n ->
  (enough_for n <= fuel)%nat ->
  exists l,
    prime_factors_generator fuel n = gen_of_list l
    /\ (forall (St : Type) (callback : Z -> St -> result St) (st : St),
          prime_factors_callback fuel n callback st = for_list l callback st)
    /\ (forall (St : Type) (body : Z -> St -> result St) (st : St),
          PrimeFactors.for_in fuel fuel (PrimeFactors.__init__ n) body st
          = for_list l body st)
    /\ (1 < n -> Sorted Z.le l /\ (1 <= length l)%nat /\ product l = n)
    /\ (n = 1 -> l = []).
Proof.
  intros Hn Hfuel. exists (factorize n).
  pose proof (factorize_sound n) as (_ & Hs & Hp & He & Hl & _).
  split; [now apply prime_factors_generator_factorize|].
  split; [|split; [|split]].
  - intros St callback st.
    rewrite prime_factors_callback_trace, prime_factors_generator_factorize
      by assumption.
    apply for_gen_of_list.
  - intros St body st. now apply for_in_factorize.
  - intros H1. repeat split; [assumption|now apply Hl|now apply Hp].
  - intros ->. apply He. lia.
Qed.

Lemma factor_sequence_correct_witness :
  exists l,
    prime_factors_generator 25 12 = gen_of_list l
    /\ (forall (St : Type) (callback : Z -> St -> result St) (st : St),
          prime_factors_callback 25 12 callback st = for_list l callback st)
    /\ (forall (St : Type) (body : Z -> St -> result St) (st : St),
          PrimeFactors.for_in 25 25 (PrimeFactors.__init__ 12) body st
          = for_list l body st)
    /\ (1 < 12 -> Sorted Z.le l /\ (1 <= length l)%nat /\ product l = 12)
    /\ (12 = 1 -> l = []).
Proof.
  apply (factor_sequence_correct 12 25); [lia | vm_compute; lia].
Defined.

Lemma for_list_total {A St : Type} (body : A -> St -> result St) :
  (forall x s, exists s', body x s = Ok s') ->
  forall l st, exists st', for_list l body st = Ok st'.
Proof.
  intros Hbody. induction l as [|x l IH]; intros st; cbn [for_list].
  - now exists st.
  - destruct (Hbody x st) as [s' ->]. cbn [bind]. apply IH.
Qed.

(** C4: for every integer n >= 1 the loop stops by itself within
    [enough_for n] iterations, with the remainder equal to 1, and nothing
    is raised: the callback form returns whenever its callback does, and
    the generator form yields finitely many values and returns. *)
Theorem factorization_terminates (n : Z) (fuel : nat) :
  1 <= n ->
  (enough_for n <= fuel)%nat ->
  (forall (St : Type) (callback : Z -> St -> result St) (st : St),
      (forall x s, exists s', callback x s = Ok s') ->
      exists factor' st',
        callback_while fuel callback n 2 st = Ok (1, factor', st')
        /\ prime_factors_callback fuel n callback st = Ok st')
  /\ (exists l, prime_factors_generator fuel n = gen_of_list l).
Proof.
  intros Hn Hfuel. split.
  - intros St callback st Hcb.
    destruct (for_list_total callback Hcb (factorize n) st) as [st' Hst'].
    pose proof (prime_factors_callback_trace fuel n callback st) as Ht.
    rewrite prime_factors_generator_factorize, for_gen_of_list, Hst' in Ht
      by assumption.
    unfold prime_factors_callback in Ht.
    destruct (callback_while fuel callback n 2 st) as [[[n' f'] s']| |] eqn:E;
      cbn [bind] in Ht; try discriminate Ht.
    injection Ht as ->.
    apply callback_while_final in E as Hn'; [|lia|lia]. subst n'.
    exists f', st'. split; [reflexivity|].
    unfold prime_factors_callback. now rewrite E.
  - exists (factorize n). now apply prime_factors_generator_factorize.
Qed.

Lemma factorization_terminates_witness :
  (forall (St : Type) (callback : Z -> St -> result St) (st : St),
      (forall x s, exists s', callback x s = Ok s') ->
      exists factor' st',
        callback_while 15 callback 7 2 st = Ok (1, factor', st')
        /\ prime_factors_callback 15 7 callback st = Ok st')
  /\ (exists l, prime_factors_generator 15 7 = gen_of_list l).
Proof.
  apply (factorization_terminates 7 15); [lia | vm_compute; lia].
Defined.

(** C9: on every integer n <= 1 the three factorizers stop at the first
    test of their guard: the callback form returns without a call of its
    callback, the generator yields nothing and returns, [__next__] raises
    [StopIteration] at once and a [for] statement over the instance runs
    its body no time; nothing else is raised and one iteration is enough. *)
Theorem factorizers_below_two (n : Z) (fuel : nat) :
  n <= 1 ->
  (forall (St : Type) (callback : Z -> St -> result St) (st : St),
      callback_while (S fuel) callback n 2 st = Ok (n, 2, st)
      /\ prime_factors_callback (S fuel) n callback st = Ok st)
  /\ prime_factors_generator (S fuel) n = Done
  /\ PrimeFactors.__next__ (S fuel) (PrimeFactors.__init__ n)
     = Raise StopIteration
  /\ (forall (St : Type) (body : Z -> St -> result St) (st : St) steps,
        PrimeFactors.for_in (S fuel) (S steps) (PrimeFactors.__init__ n) body st
        = Ok st).
Proof.
  intros Hn. split; [|split; [|split]].
  - intros St callback st. unfold prime_factors_callback.
    rewrite callback_stop by assumption. split; reflexivity.
  - now apply generator_stop.
  - now apply next_stop.
  - intros St body st steps. cbn [PrimeFactors.for_in].
    unfold PrimeFactors.__init__. now rewrite next_stop.
Qed.

Lemma factorizers_below_two_witness :
  prime_factors_generator 1 (-4) = Done
  /\ PrimeFactors.__next__ 1 (PrimeFactors.__init__ 0) = Raise StopIteration.
Proof.
  split.
  - apply (factorizers_below_two (-4) 0). lia.
  - apply (factorizers_below_two 0 0). lia.
Defined.

(** ** The cursor *)

Lemma next_factor_spec (factor : Z) :
  next_factor factor = if factor =? 2 then 3 else factor + 2.
Proof.
  unfold next_factor. destruct (factor =? 2) eqn:E; [|reflexivity].
  apply Z.eqb_eq in E. now subst.
Qed.

Lemma exact_quotient (number factor : Z) :
  1 < number -> 2 <= factor -> number mod factor = 0 ->
  number = factor * (number / factor) /\ 1 <= number / factor < number.
Proof.
  intros Hn Hf Hm.
  assert (Hq : number = factor * (number / factor)) by (apply Z.div_exact; lia).
  split; [assumption|nia].
Qed.

(** [__next__] moves as the advance of the specification does. *)
Lemma next_refines_advance (fuel : nat) :
  forall number factor,
    2 <= factor ->
    advance_matches
      (PrimeFactors.__next__ fuel
         {| PrimeFactors.number := number; PrimeFactors.factor := factor |})
      (spec_advance fuel
         (cursor_of
            {| PrimeFactors.number := number; PrimeFactors.factor := factor |})).
Proof.
  induction fuel as [|fuel IH]; intros number factor Hf2; [exact I|].
  unfold cursor_of. cbn [PrimeFactors.number PrimeFactors.factor].
  destruct (loop_cases number factor)
    as [H|[[H Hf]|[(H & Hf & Hd)|(H & Hf & Hd)]]].
  - rewrite next_stop, guard_false by assumption. exact I.
  - lia.
  - rewrite next_emit, guard_true by assumption. cbn [spec_advance].
    rewrite Hd. cbn [Z.eqb advance_matches]. split; [reflexivity|].
    destruct (exact_quotient number factor H Hf2 Hd) as [_ Hq].
    unfold cursor_of, settle. cbn [PrimeFactors.number PrimeFactors.factor].
    destruct (Z.eq_dec (number / factor) 1) as [E|E].
    + rewrite E. reflexivity.
    + rewrite guard_true by lia.
      destruct (number / factor =? 1) eqn:E1;
        [apply Z.eqb_eq in E1; contradiction|reflexivity].
  - rewrite next_skip, guard_true by assumption. cbn [spec_advance].
    destruct (number mod factor =? 0) eqn:E;
      [apply Z.eqb_eq in E; contradiction|].
    rewrite <- next_factor_spec.
    specialize (IH number (next_factor factor)).
    unfold cursor_of in IH.
    cbn [PrimeFactors.number PrimeFactors.factor] in IH.
    rewrite guard_true in IH by assumption. apply IH.
    unfold next_factor. destruct (factor =? 2); lia.
Qed.

(** [StopIteration] is raised when, and only when, the remainder is at
    most 1. *)
Lemma next_stops_iff (fuel : nat) :
  forall number factor,
    PrimeFactors.__next__ (S fuel)
      {| PrimeFactors.number := number; PrimeFactors.factor := factor |}
    = Raise StopIteration
    <-> number <= 1.
Proof.
  induction fuel as [|fuel IH]; intros number factor;
    (split; [|now apply next_stop]); intros Hr;
    destruct (loop_cases number factor)
      as [H|[[H Hf]|[(H & Hf & Hd)|(H & Hf & Hd)]]]; try assumption.
  - rewrite next_zero in Hr by assumption. discriminate Hr.
  - rewrite next_emit in Hr by assumption. discriminate Hr.
  - rewrite next_skip in Hr by assumption. discriminate Hr.
  - rewrite next_zero in Hr by assumption. discriminate Hr.
  - rewrite next_emit in Hr by assumption. discriminate Hr.
  - rewrite next_skip in Hr by assumption. apply IH in Hr. lia.
Qed.

(** What a successful call of [__next__] returns and leaves behind. *)
Lemma next_returns (fuel : nat) :
  forall number factor x self',
    PrimeFactors.__next__ fuel
      {| PrimeFactors.number := number; PrimeFactors.factor := factor |}
    = Ok (x, self') ->
    trial_inv number factor ->
    1 < number
    /\ factor <= x
    /\ number mod x = 0
    /\ self' = {| PrimeFactors.number := number / x; PrimeFactors.factor := x |}
    /\ trial_inv (number / x) x.
Proof.
  induction fuel as [|fuel IH]; intros number factor x self' Hr Hinv;
    [discriminate Hr|].
  destruct (loop_cases number factor)
    as [H|[[H Hf]|[(H & Hf & Hd)|(H & Hf & Hd)]]].
  - rewrite next_stop in Hr by assumption. discriminate Hr.
  - rewrite next_zero in Hr by assumption. discriminate Hr.
  - rewrite next_emit in Hr by assumption. injection Hr as <- <-.
    split; [assumption|]. split; [lia|]. split; [assumption|].
    split; [reflexivity|]. now apply trial_inv_emit.
  - rewrite next_skip in Hr by assumption.
    apply IH in Hr; [|now apply trial_inv_skip].
    destruct Hr as (H1 & Hle & Hrest). split; [assumption|].
    split; [|exact Hrest].
    unfold next_factor in Hle. destruct (factor =? 2); lia.
Qed.

Lemma reachable_inv (n : Z) (self : PrimeFactors.t) :
  reachable n self ->
  trial_inv (PrimeFactors.number self) (PrimeFactors.factor self)
  /\ (1 <= n -> 1 <= PrimeFactors.number self <= n)
  /\ (n <= 1 -> PrimeFactors.number self = n).
Proof.
  induction 1 as [|fuel [number factor] self' x Hreach IH Hnext].
  - cbn. split; [apply trial_inv_init|]. split; intros; lia.
  - cbn [PrimeFactors.number PrimeFactors.factor] in IH.
    destruct IH as (Hinv & Hpos & Hlow).
    destruct (next_returns _ _ _ _ _ Hnext Hinv) as (H1 & _ & Hm & -> & Hinv').
    cbn [PrimeFactors.number PrimeFactors.factor].
    split; [assumption|].
    assert (Hx : 2 <= x) by (destruct Hinv'; assumption).
    destruct (exact_quotient number x H1 Hx Hm) as [_ Hq].
    split; intros; lia.
Qed.

(** C7: a [PrimeFactors] instance is the cursor of the specification.  It
    is built on an integer with the divisor 2.  A call of [__next__] on a
    remainder above 1 returns the divisor, divides the remainder by it and
    keeps the divisor when the divisor divides the remainder, and otherwise
    retries with the divisor moved from 2 to 3 or by 2.  In every state the
    instance reaches, [__next__] moves as the advance of the specification
    does, it raises [StopIteration] exactly when the remainder is at most
    1, which on an instance built on n >= 1 means equal to 1, and on a
    remainder above 1 it returns a factor. *)
Theorem prime_factors_cursor (n : Z) :
  PrimeFactors.__init__ n
  = {| PrimeFactors.number := n; PrimeFactors.factor := 2 |}
  /\ cursor_of (PrimeFactors.__init__ n) = spec_construct n
  /\ (forall fuel number factor,
        1 < number -> factor <> 0 -> number mod factor = 0 ->
        PrimeFactors.__next__ (S fuel)
          {| PrimeFactors.number := number; PrimeFactors.factor := factor |}
        = Ok (factor,
              {| PrimeFactors.number := number / factor;
                 PrimeFactors.factor := factor |}))
  /\ (forall fuel number factor,
        1 < number -> factor <> 0 -> number mod factor <> 0 ->
        PrimeFactors.__next__ (S fuel)
          {| PrimeFactors.number := number; PrimeFactors.factor := factor |}
        = PrimeFactors.__next__ fuel
            {| PrimeFactors.number := number;
               PrimeFactors.factor := if factor =? 2 then 3 else factor + 2 |})
  /\ forall self,
       reachable n self ->
       2 <= PrimeFactors.factor self
       /\ (forall fuel,
             advance_matches (PrimeFactors.__next__ fuel self)
               (spec_advance fuel (cursor_of self)))
       /\ (forall fuel,
             PrimeFactors.__next__ (S fuel) self = Raise StopIteration
             <-> PrimeFactors.number self <= 1)
       /\ (1 <= n ->
           (PrimeFactors.number self <= 1 <-> PrimeFactors.number self = 1))
       /\ (forall fuel,
             (enough_for n <= fuel)%nat ->
             1 < PrimeFactors.number self ->
             exists x,
               PrimeFactors.__next__ fuel self
               = Ok (x, {| PrimeFactors.number := PrimeFactors.number self / x;
                           PrimeFactors.factor := x |})
               /\ PrimeFactors.factor self <= x
               /\ PrimeFactors.number self mod x = 0).
Proof.
  split; [reflexivity|]. split.
  { unfold cursor_of, spec_construct, PrimeFactors.__init__.
    cbn [PrimeFactors.number PrimeFactors.factor].
    rewrite Z.gtb_ltb, Z.ltb_antisym. destruct (n <=? 1); reflexivity. }
  split; [intros; now apply next_emit|].
  split; [intros; rewrite <- next_factor_spec; now apply next_skip|].
  intros [number factor] Hreach.
  destruct (reachable_inv n _ Hreach) as (Hinv & Hpos & Hlow).
  cbn [PrimeFactors.number PrimeFactors.factor] in *.
  assert (Hf2 : 2 <= factor) by (destruct Hinv; assumption).
  split; [assumption|].
  split; [intros fuel; now apply next_refines_advance|].
  split; [intros fuel; apply next_stops_iff|].
  split; [intros Hn; specialize (Hpos Hn); lia|].
  intros fuel Hfuel Hnum.
  assert (Hn : 1 <= n) by (destruct (Z_le_gt_dec 1 n); [assumption|lia]).
  specialize (Hpos Hn).
  pose proof (trial_inv_le _ _ Hinv Hnum) as Hle.
  destruct (generator_while_total fuel number factor Hinv) as [l Hl];
    [unfold enough_for in Hfuel; lia..|].
  destruct (generator_while_sound fuel number factor l Hf2 Hl)
    as (_ & _ & _ & _ & Hlen & _).
  specialize (Hlen Hnum).
  pose proof (next_of_trace fuel number factor l Hl) as Hnext.
  destruct l as [|x l]; [cbn in Hlen; lia|].
  destruct Hnext as (self' & Hnext & _).
  destruct (next_returns _ _ _ _ _ Hnext Hinv) as (_ & Hx & Hm & -> & _).
  exists x. repeat split; assumption.
Qed.

(** ** The order of the two filters *)

Lemma filter_swap {A : Type} (f g : A -> bool) (l : list A) :
  filter f (filter g l) = filter g (filter f l).
Proof.
  induction l as [|x l IH]; [reflexivity|]. cbn [filter].
  destruct (f x) eqn:Ef, (g x) eqn:Eg; cbn [filter];
    rewrite ?Ef, ?Eg, IH; reflexivity.
Qed.

Lemma for_list_ext {A St : Type} (body1 body2 : A -> St -> result St) :
  (forall x st, body1 x st = body2 x st) ->
  forall l st, for_list l body1 st = for_list l body2 st.
Proof.
  intros H. induction l as [|x l IH]; intros st; cbn [for_list]; [reflexivity|].
  rewrite H. destruct (body2 x st); cbn [bind]; auto.
Qed.

(** C8: the two filters commute.  On every range [a, b] the values that
    pass the power-of-two filter and then the power-of-three filter are
    those that pass them in the other order, in the same order, as lazy
    filters, as in-place stages and as async filters; the inline test of
    the callback and iterator pipelines is symmetric as well; so the pair
    returned by a pipeline is the same with the two filter stages
    exchanged. *)
Theorem filters_commute (a b : Z) (fuel : nat) :
  (py_filter not_power_of_three
     (py_filter not_power_of_two (gen_of_list (py_range a (b + 1))))
   = gen_of_list (survivors (py_range a (b + 1)))
   /\ py_filter not_power_of_two
        (py_filter not_power_of_three (gen_of_list (py_range a (b + 1))))
      = gen_of_list (survivors (py_range a (b + 1))))
  /\ ((data <- process fuel (FilterStage is_power_of_two)
                 (py_range a (b + 1)) ;;
       process fuel (FilterStage is_power_of_three) data)
      = Ok (survivors (py_range a (b + 1)))
      /\ (data <- process fuel (FilterStage is_power_of_three)
                    (py_range a (b + 1)) ;;
          process fuel (FilterStage is_power_of_two) data)
         = Ok (survivors (py_range a (b + 1))))
  /\ (filter_async (filter_async (for_range_async a b) is_power_of_two)
        is_power_of_three
      = filter_async (filter_async (for_range_async a b) is_power_of_three)
          is_power_of_two)
  /\ (forall value,
        passes_filters value
        = (p3 <- is_power_of_three value ;;
           if negb p3 then p2 <- is_power_of_two value ;; Ok (negb p2)
           else Ok false))
  /\ expand_and_reduce fuel
       (py_filter not_power_of_two
          (py_filter not_power_of_three (gen_of_list (py_range a (b + 1)))))
     = pipeline_generators_over a b fuel
  /\ run_stages fuel
       [ ForRangeStage a b;
         FilterStage is_power_of_three;
         FilterStage is_power_of_two;
         PrimeFactorsStage ]
     = pipeline_dynamic_dispatch_over a b fuel
  /\ for_gen
       (prime_factors_async fuel
          (filter_async (filter_async (for_range_async a b) is_power_of_three)
             is_power_of_two))
       (fun factor '(sum_factors, count) =>
          Ok (sum_factors + factor, count + 1))
       (0, 0)
     = pipeline_async_over a b fuel
  /\ for_list (py_range a (b + 1))
       (fun value st =>
          keep <- (p3 <- is_power_of_three value ;;
                   if negb p3 then p2 <- is_power_of_two value ;; Ok (negb p2)
                   else Ok false) ;;
          if keep then prime_factors_callback fuel value record_factor st
          else Ok st)
       (0, 0)
     = pipeline_callbacks_over a b fuel
  /\ for_list (py_range a (b + 1))
       (fun value st =>
          keep <- (p3 <- is_power_of_three value ;;
                   if negb p3 then p2 <- is_power_of_two value ;; Ok (negb p2)
                   else Ok false) ;;
          if keep then
            PrimeFactors.for_in fuel fuel (PrimeFactors.__init__ value)
              (fun factor '(sum_factors, count) =>
                 Ok (sum_factors + factor, count + 1))
              st
          else Ok st)
       (0, 0)
     = pipeline_iterators_over a b fuel.
Proof.
  assert (Hswap : forall value,
    passes_filters value
    = (p3 <- is_power_of_three value ;;
       if negb p3 then p2 <- is_power_of_two value ;; Ok (negb p2)
       else Ok false)).
  { intros value. rewrite passes_filters_eq.
    rewrite is_power_of_two_eq, is_power_of_three_eq. cbn [bind].
    destruct (pow2b value), (pow3b value); reflexivity. }
  assert (Hasync :
    filter_async (filter_async (for_range_async a b) is_power_of_two)
      is_power_of_three
    = filter_async (filter_async (for_range_async a b) is_power_of_three)
        is_power_of_two).
  { unfold for_range_async.
    rewrite !(filter_async_of_list _ _ _ is_power_of_two_eq),
      !(filter_async_of_list _ _ _ is_power_of_three_eq).
    rewrite !(filter_async_of_list _ _ _ is_power_of_two_eq).
    now rewrite filter_swap. }
  assert (Hgen2 :
    py_filter not_power_of_two
      (py_filter not_power_of_three (gen_of_list (py_range a (b + 1))))
    = gen_of_list (survivors (py_range a (b + 1)))).
  { rewrite (py_filter_of_list _ _ _ negated_three),
      (py_filter_of_list _ _ _ negated_two), filter_swap.
    now rewrite survivors_filter_filter. }
  assert (Hgen1 :
    py_filter not_power_of_three
      (py_filter not_power_of_two (gen_of_list (py_range a (b + 1))))
    = gen_of_list (survivors (py_range a (b + 1)))).
  { rewrite (py_filter_of_list _ _ _ negated_two),
      (py_filter_of_list _ _ _ negated_three).
    now rewrite survivors_filter_filter. }
  split; [split; assumption|]. split; [split|].
  - cbn [process].
    rewrite (comprehension_if_not_eq _ _ _ is_power_of_two_eq). cbn [bind].
    rewrite (comprehension_if_not_eq _ _ _ is_power_of_three_eq).
    now rewrite survivors_filter_filter.
  - cbn [process].
    rewrite (comprehension_if_not_eq _ _ _ is_power_of_three_eq). cbn [bind].
    rewrite (comprehension_if_not_eq _ _ _ is_power_of_two_eq), filter_swap.
    now rewrite survivors_filter_filter.
  - split; [exact Hasync|]. split; [exact Hswap|].
    split; [|split; [|split; [|split]]].
    + unfold pipeline_generators_over. cbv zeta. now rewrite Hgen1, Hgen2.
    + unfold pipeline_dynamic_dispatch_over, run_stages.
      cbn [for_list process bind app].
      rewrite (comprehension_if_not_eq _ _ _ is_power_of_two_eq),
        (comprehension_if_not_eq _ _ _ is_power_of_three_eq). cbn [bind].
      rewrite (comprehension_if_not_eq _ _ _ is_power_of_two_eq),
        (comprehension_if_not_eq _ _ _ is_power_of_three_eq). cbn [bind].
      now rewrite filter_swap.
    + unfold pipeline_async_over. cbv zeta. now rewrite Hasync.
    + unfold pipeline_callbacks_over. apply for_list_ext.
      intros value st. now rewrite Hswap.
    + unfold pipeline_iterators_over. apply for_list_ext.
      intros value st. now rewrite Hswap.
Qed.

(** ** Further properties of the specification *)

Lemma generator_while_primes (fuel : nat) :
  forall number factor l,
    trial_inv number factor ->
    generator_while fuel number factor = gen_of_list l ->
    Forall is_prime l.
Proof.
  induction fuel as [|fuel IH]; intros number factor l Hinv Hl.
  - destruct l; discriminate Hl.
  - destruct (loop_cases number factor)
      as [H|[[H Hf]|[(H & Hf & Hd)|(H & Hf & Hd)]]].
    + rewrite generator_stop in Hl by assumption.
      destruct l; [constructor|discriminate Hl].
    + rewrite generator_zero in Hl by assumption. destruct l; discriminate Hl.
    + rewrite generator_emit in Hl by assumption.
      destruct l as [|x l]; [discriminate Hl|]. cbn [gen_of_list] in Hl.
      injection Hl as Hx Hl. subst x. constructor.
      * destruct Hinv as (Hf2 & _ & Hno). split; [assumption|].
        intros d Hrange Hdiv. apply (Hno d Hrange).
        apply Z.divide_trans with factor; [assumption|].
        apply Z.mod_divide; assumption.
      * apply (IH (number / factor) factor); [|assumption].
        now apply trial_inv_emit.
    + rewrite generator_skip in Hl by assumption.
      apply (IH number (next_factor factor)); [|assumption].
      now apply trial_inv_skip.
Qed.

(** X1 (section 3 of the specification): the factors the generator
    yields, and with them those of the callback form and of
    [PrimeFactors], are primes. *)
Theorem factors_are_prime (n : Z) (fuel : nat) :
  (enough_for n <= fuel)%nat ->
  exists l,
    prime_factors_generator fuel n = gen_of_list l /\ Forall is_prime l.
Proof.
  intros Hfuel. exists (factorize n).
  pose proof (prime_factors_generator_factorize fuel n Hfuel) as H.
  split; [assumption|].
  apply (generator_while_primes fuel n 2); [apply trial_inv_init|exact H].
Qed.

Lemma factors_are_prime_witness :
  exists l, prime_factors_generator 121 60 = gen_of_list l /\ Forall is_prime l.
Proof. apply (factors_are_prime 60 121). vm_compute. lia. Defined.

(** X2 (section 8 of the specification, the empty-range boundary): on a
    range [a, a] whose only value is rejected by a filter, every strategy
    returns (0, 0), and no loop of the factorizer is entered. *)
Theorem empty_range_pair (a : Z) (fuel : nat) :
  pow2b a = true \/ pow3b a = true ->
  pipeline_callbacks_over a a fuel = Ok (0, 0)
  /\ pipeline_generators_over a a fuel = Ok (0, 0)
  /\ pipeline_iterators_over a a fuel = Ok (0, 0)
  /\ pipeline_dynamic_dispatch_over a a fuel = Ok (0, 0)
  /\ pipeline_async_over a a fuel = Ok (0, 0).
Proof.
  intros Hrej.
  assert (Hrange : py_range a (a + 1) = [a]).
  { unfold py_range. replace (a + 1 - a) with 1 by lia.
    change (Z.to_nat 1) with 1%nat. cbn [seq map Z.of_nat]. f_equal. lia. }
  assert (Hkeep : negb (pow2b a) && negb (pow3b a) = false).
  { destruct Hrej as [-> | ->]; [reflexivity|apply andb_false_r]. }
  assert (Hsurv : survivors [a] = []).
  { unfold survivors. cbn [filter]. now rewrite Hkeep. }
  split; [|split; [|split; [|split]]].
  - unfold pipeline_callbacks_over. rewrite Hrange. cbn [for_list].
    now rewrite passes_filters_eq, Hkeep.
  - unfold pipeline_generators_over. cbv zeta.
    rewrite Hrange, (py_filter_of_list _ _ _ negated_two),
      (py_filter_of_list _ _ _ negated_three), survivors_filter_filter, Hsurv.
    reflexivity.
  - unfold pipeline_iterators_over. rewrite Hrange. cbn [for_list].
    now rewrite passes_filters_eq, Hkeep.
  - unfold pipeline_dynamic_dispatch_over, run_stages.
    cbn [for_list process bind app].
    rewrite Hrange, (comprehension_if_not_eq _ _ _ is_power_of_two_eq).
    cbn [bind].
    rewrite (comprehension_if_not_eq _ _ _ is_power_of_three_eq),
      survivors_filter_filter, Hsurv.
    reflexivity.
  - unfold pipeline_async_over, for_range_async. cbv zeta.
    rewrite Hrange, (filter_async_of_list _ _ _ is_power_of_two_eq),
      (filter_async_of_list _ _ _ is_power_of_three_eq),
      survivors_filter_filter, Hsurv.
    reflexivity.
Qed.

Lemma empty_range_pair_witness :
  pipeline_callbacks_over 8 8 0 = Ok (0, 0)
  /\ pipeline_generators_over 8 8 0 = Ok (0, 0)
  /\ pipeline_iterators_over 8 8 0 = Ok (0, 0)
  /\ pipeline_dynamic_dispatch_over 8 8 0 = Ok (0, 0)
  /\ pipeline_async_over 8 8 0 = Ok (0, 0).
Proof. apply (empty_range_pair 8 0). left. reflexivity. Defined.

(** ** Concrete runs *)

Lemma is_power_of_two_spec_witness :
  is_power_of_two 0 = Ok false /\ is_power_of_two (-8) = Ok false.
Proof.
  split.
  - apply (is_power_of_two_spec 0). lia.
  - apply (is_power_of_two_spec (-8)). lia.
Defined.

Lemma is_power_of_three_spec_witness :
  is_power_of_three (-3) = Ok false
  /\ (is_power_of_three 27 = Ok true <-> exists k, 0 <= k /\ 27 = 3 ^ k).
Proof.
  split.
  - apply (is_power_of_three_spec (-3)). lia.
  - apply (is_power_of_three_spec 27). vm_compute. discriminate.
Defined.

Lemma is_power_of_three_beyond_max_witness :
  is_power_of_three (3 ^ 42) = Ok false.
Proof. apply (proj1 is_power_of_three_beyond_max 42). lia. Defined.

Lemma prime_factors_cursor_witness :
  PrimeFactors.__next__ 3
    {| PrimeFactors.number := 15; PrimeFactors.factor := 2 |}
  = PrimeFactors.__next__ 2
      {| PrimeFactors.number := 15; PrimeFactors.factor := 3 |}.
Proof.
  destruct (prime_factors_cursor 15) as (_ & _ & _ & Hskip & _).
  apply (Hskip 2%nat 15 2); [lia | lia | vm_compute; discriminate].
Defined.

Example factorize_360 : factorize 360 = [2; 2; 2; 3; 3; 5].
Proof. vm_compute. reflexivity. Qed.

Example factorize_prime : factorize 47 = [47].
Proof. vm_compute. reflexivity. Qed.

Example next_on_15 :
  PrimeFactors.__next__ 5 (PrimeFactors.__init__ 15)
  = Ok (3, {| PrimeFactors.number := 5; PrimeFactors.factor := 3 |}).
Proof. reflexivity. Qed.

Example advance_on_15 :
  spec_advance 5 (spec_construct 15) = Ok (Emit 3, Active 5 3).
Proof. reflexivity. Qed.

Example survivors_canonical :
  survivors (py_range PIPE_START (PIPE_END + 1))
  = [5; 6; 7; 10; 11; 12; 13; 14; 15; 17; 18; 19; 20; 21; 22; 23; 24; 25; 26;
     28; 29; 30; 31; 33; 34; 35; 36; 37; 38; 39; 40; 41; 42; 43; 44; 45; 46;
     47; 48; 49].
Proof. vm_compute. reflexivity. Qed.

Example generator_out_of_fuel : prime_factors_generator 3 49 = Hang.
Proof. reflexivity. Qed.

Example empty_range_boundary :
  pipeline_callbacks_over 8 8 17 = Ok (0, 0)
  /\ pipeline_generators_over 8 8 17 = Ok (0, 0)
  /\ pipeline_iterators_over 8 8 17 = Ok (0, 0)
  /\ pipeline_dynamic_dispatch_over 8 8 17 = Ok (0, 0)
  /\ pipeline_async_over 8 8 17 = Ok (0, 0).
Proof. repeat split. Qed.

(** ** The three ways of reporting a failure *)

Module ErrorsFacts.

Import String Errors.
Local Open Scope string_scope.
Local Open Scope Z_scope.

Section Builtins.

Variable py_int : string -> outcome Z.
Variable isnumeric : string -> bool.

(** What the functions need of the two builtins: the two strings the
    simulated file can hold are read as Python reads them. *)
Hypothesis int_of_1 : py_int "1"%string = Returns 1.
Hypothesis int_of_abc : exists m, py_int "abc"%string = Raises (ValueError m).
Hypothesis isnumeric_1 : isnumeric "1"%string = true.
Hypothesis isnumeric_abc : isnumeric "abc"%string = false.

Ltac periods :=
  unfold fail_period_read_integer, fail_period_convert_to_integer,
    fail_period_next_string, fail_period_write_back.

Lemma expected_first_failure (file : string) (iteration : Z) :
  increment_file_expected py_int isnumeric file iteration
  = Returns (Some (first_failure iteration)).
Proof.
  unfold increment_file_expected, read_integer_from_file_expected,
    string_to_integer_expected, integer_to_next_string_expected,
    write_to_file_expected, first_failure. periods.
  destruct (iteration mod 6 =? 0); [reflexivity|].
  destruct (iteration mod 11 =? 0); cbn [is_ok error value negb].
  - rewrite isnumeric_abc. reflexivity.
  - rewrite isnumeric_1, int_of_1. cbn [is_ok error value negb].
    destruct (iteration mod 17 =? 0); [reflexivity|].
    cbn [is_ok error value negb].
    destruct (iteration mod 23 =? 0); reflexivity.
Qed.

Lemma status_first_failure (file : string) (iteration : Z) :
  increment_file_status py_int isnumeric file iteration
  = Returns (code_of_status (first_failure iteration)).
Proof.
  unfold increment_file_status, read_integer_from_file_status,
    string_to_integer_status, integer_to_next_string_status,
    write_to_file_status, first_failure. periods.
  destruct (iteration mod 6 =? 0); [reflexivity|].
  destruct (iteration mod 11 =? 0).
  - change (negb (STATUS_SUCCESS =? STATUS_SUCCESS)) with false. cbv iota.
    rewrite isnumeric_abc. reflexivity.
  - change (negb (STATUS_SUCCESS =? STATUS_SUCCESS)) with false. cbv iota.
    rewrite isnumeric_1, int_of_1. cbn [negb].
    change (negb (STATUS_SUCCESS =? STATUS_SUCCESS)) with false. cbv iota.
    destruct (iteration mod 17 =? 0); [reflexivity|].
    change (negb (STATUS_SUCCESS =? STATUS_SUCCESS)) with false. cbv iota.
    destruct (iteration mod 23 =? 0); reflexivity.
Qed.

Lemma raise_first_failure (file : string) (iteration : Z) :
  increment_file_or_raise py_int file iteration
  = raised_for (first_failure iteration) iteration.
Proof.
  unfold increment_file_or_raise, read_integer_from_file_or_raise,
    string_to_integer_or_raise, integer_to_next_string_or_raise,
    write_to_file_or_raise, first_failure. periods.
  destruct (iteration mod 6 =? 0); [reflexivity|].
  destruct (iteration mod 11 =? 0).
  - destruct int_of_abc as [m ->]. reflexivity.
  - rewrite int_of_1.
    destruct (iteration mod 17 =? 0); [reflexivity|].
    destruct (iteration mod 23 =? 0); reflexivity.
Qed.

Lemma mod_eqb_divide (d n : Z) :
  d <> 0 ->
  ((n mod d =? 0) = true /\ (d | n)) \/ ((n mod d =? 0) = false /\ ~ (d | n)).
Proof.
  intros Hd. destruct (Z.eqb_spec (n mod d) 0) as [E|E]; [left|right];
    (split; [reflexivity|]).
  - now apply Z.mod_divide.
  - intros H. apply E. now apply Z.mod_divide.
Qed.

Lemma first_failure_cases (iteration : Z) :
  (first_failure iteration = READ_FAILED <-> (6 | iteration))
  /\ (first_failure iteration = CONVERT_FAILED
      <-> ~ (6 | iteration) /\ (11 | iteration))
  /\ (first_failure iteration = INCREMENT_FAILED
      <-> ~ (6 | iteration) /\ ~ (11 | iteration) /\ (17 | iteration))
  /\ (first_failure iteration = WRITE_FAILED
      <-> ~ (6 | iteration) /\ ~ (11 | iteration) /\ ~ (17 | iteration)
          /\ (23 | iteration))
  /\ (first_failure iteration = SUCCESS
      <-> ~ (6 | iteration) /\ ~ (11 | iteration) /\ ~ (17 | iteration)
          /\ ~ (23 | iteration)).
Proof.
  unfold first_failure.
  destruct (mod_eqb_divide 6 iteration ltac:(lia)) as [[-> H6]|[-> H6]];
    [repeat split; intros; try discriminate; tauto|].
  destruct (mod_eqb_divide 11 iteration ltac:(lia)) as [[-> H11]|[-> H11]];
    [repeat split; intros; try discriminate; tauto|].
  destruct (mod_eqb_divide 17 iteration ltac:(lia)) as [[-> H17]|[-> H17]];
    [repeat split; intros; try discriminate; tauto|].
  destruct (mod_eqb_divide 23 iteration ltac:(lia)) as [[-> H23]|[-> H23]];
    repeat split; intros; try discriminate; tauto.
Qed.

Lemma code_of_status_inj (s1 s2 : Status) :
  code_of_status s1 = code_of_status s2 -> s1 = s2.
Proof. destruct s1, s2; intros H; try reflexivity; discriminate H. Qed.

(** X10: at every iteration the three versions of the increment report the
    same thing: the [Expected] version returns a status, the status-code
    version returns the code of that status, and the raising version
    returns when the status is SUCCESS and otherwise raises the exception
    of that failure, a [ValueError] for a failed conversion and a
    [RuntimeError] for the others, with the iteration in its message. *)
Theorem three_ways_agree (file : string) (iteration : Z) :
  exists st,
    increment_file_expected py_int isnumeric file iteration = Returns (Some st)
    /\ increment_file_status py_int isnumeric file iteration
       = Returns (code_of_status st)
    /\ increment_file_or_raise py_int file iteration = raised_for st iteration
    /\ (increment_file_or_raise py_int file iteration = Returns tt
        <-> st = SUCCESS).
Proof.
  exists (first_failure iteration).
  rewrite expected_first_failure, status_first_failure, raise_first_failure.
  repeat split.
  - destruct (first_failure iteration); cbn; intros H;
      try reflexivity; discriminate H.
  - intros ->. reflexivity.
Qed.

(** X11: the stage that fails is the first one, in the order read, convert,
    increment, write, whose period divides the iteration: the status code
    is 1 exactly on the multiples of 6, 2 on the other multiples of 11, 3
    on the multiples of 17 that are left, 4 on the multiples of 23 that
    are left, and 0 on every other iteration. *)
Theorem failure_priority (file : string) (iteration : Z) :
  (increment_file_status py_int isnumeric file iteration
   = Returns STATUS_READ_FAILED <-> (6 | iteration))
  /\ (increment_file_status py_int isnumeric file iteration
      = Returns STATUS_CONVERT_FAILED
      <-> ~ (6 | iteration) /\ (11 | iteration))
  /\ (increment_file_status py_int isnumeric file iteration
      = Returns STATUS_INCREMENT_FAILED
      <-> ~ (6 | iteration) /\ ~ (11 | iteration) /\ (17 | iteration))
  /\ (increment_file_status py_int isnumeric file iteration
      = Returns STATUS_WRITE_FAILED
      <-> ~ (6 | iteration) /\ ~ (11 | iteration) /\ ~ (17 | iteration)
          /\ (23 | iteration))
  /\ (increment_file_status py_int isnumeric file iteration
      = Returns STATUS_SUCCESS
      <-> ~ (6 | iteration) /\ ~ (11 | iteration) /\ ~ (17 | iteration)
          /\ ~ (23 | iteration)).
Proof.
  rewrite status_first_failure.
  assert (E : forall st,
    Returns (code_of_status (first_failure iteration))
    = Returns (code_of_status st) <-> first_failure iteration = st).
  { intros st. split; [|intros ->; reflexivity].
    intros [= H]. now apply code_of_status_inj. }
  change STATUS_READ_FAILED with (code_of_status READ_FAILED).
  change STATUS_CONVERT_FAILED with (code_of_status CONVERT_FAILED).
  change STATUS_INCREMENT_FAILED with (code_of_status INCREMENT_FAILED).
  change STATUS_WRITE_FAILED with (code_of_status WRITE_FAILED).
  change STATUS_SUCCESS with (code_of_status SUCCESS).
  rewrite !E. apply first_failure_cases.
Qed.

Lemma runner_loop_returns {A : Type} (call : Z -> outcome A) (swallow : bool) :
  (swallow = true \/ forall iteration, exists a, call iteration = Returns a) ->
  forall rounds iteration,
    runner_loop call swallow rounds iteration = Returns tt.
Proof.
  intros H. induction rounds as [|rounds IH]; intros iteration; [reflexivity|].
  cbn [runner_loop]. cbv zeta.
  destruct H as [-> | H].
  - destruct (call (iteration + 1)); apply IH.
  - destruct (H (iteration + 1)) as [a ->]. apply IH.
Qed.

(** X12: the three [runner] loops go through all their rounds and return.
    The two status-based ones call functions that never raise; the
    raising one relies on its [except]: without it the loop started at 0
    stops at the sixth round with the read failure. *)
Theorem runners_return :
  runner_raise py_int = Returns tt
  /\ runner_expected py_int isnumeric = Returns tt
  /\ runner_status py_int isnumeric = Returns tt
  /\ (forall file rounds,
        (6 <= rounds)%nat ->
        runner_loop (increment_file_or_raise py_int file) false rounds 0
        = Raises (RuntimeError "File read failed at iteration 6"%string)).
Proof.
  split; [|split; [|split]].
  - apply runner_loop_returns. now left.
  - apply runner_loop_returns. right. intros iteration.
    rewrite expected_first_failure. eauto.
  - apply runner_loop_returns. right. intros iteration.
    rewrite status_first_failure. eauto.
  - intros file rounds Hr.
    do 6 (destruct rounds as [|rounds]; [lia|]).
    cbn [runner_loop]. cbv zeta. cbn [Z.add Pos.add Pos.succ].
    rewrite !raise_first_failure. reflexivity.
Qed.

(** X13: the failure pattern repeats every 25806 = 6 * 11 * 17 * 23
    iterations. *)
Theorem failure_period (file : string) (iteration k : Z) :
  increment_file_status py_int isnumeric file (iteration + 25806 * k)
  = increment_file_status py_int isnumeric file iteration
  /\ increment_file_expected py_int isnumeric file (iteration + 25806 * k)
     = increment_file_expected py_int isnumeric file iteration.
Proof.
  rewrite !status_first_failure, !expected_first_failure.
  assert (E : first_failure (iteration + 25806 * k) = first_failure iteration).
  { unfold first_failure.
    replace (iteration + 25806 * k) with (iteration + (4301 * k) * 6) at 1 by lia.
    replace (iteration + 25806 * k) with (iteration + (2346 * k) * 11) at 1 by lia.
    replace (iteration + 25806 * k) with (iteration + (1518 * k) * 17) at 1 by lia.
    replace (iteration + 25806 * k) with (iteration + (1122 * k) * 23) by lia.
    now rewrite !Z_mod_plus_full. }
  now rewrite E.
Qed.

(** X14: the status-code version mirrors the [Expected] version whatever
    the two builtins do: it returns the code of the status the other
    returns, and raises what the other raises; and the [Expected] version
    never returns [None]. *)
Theorem status_mirrors_expected (file : string) (iteration : Z) :
  increment_file_status py_int isnumeric file iteration
  = match increment_file_expected py_int isnumeric file iteration with
    | Returns (Some st) => Returns (code_of_status st)
    | Returns None => Returns STATUS_SUCCESS
    | Raises e => Raises e
    end
  /\ increment_file_expected py_int isnumeric file iteration <> Returns None.
Proof.
  clear int_of_1 int_of_abc isnumeric_1 isnumeric_abc.
  unfold increment_file_status, read_integer_from_file_status,
    string_to_integer_status, integer_to_next_string_status,
    write_to_file_status, increment_file_expected,
    read_integer_from_file_expected, string_to_integer_expected,
    integer_to_next_string_expected, write_to_file_expected. periods.
  destruct (iteration mod 6 =? 0); [split; [reflexivity|discriminate]|].
  destruct (iteration mod 11 =? 0);
    cbn [is_ok error value negb];
    change (negb (STATUS_SUCCESS =? STATUS_SUCCESS)) with false; cbv iota;
    (match goal with |- context [isnumeric ?s] => destruct (isnumeric s) end);
    cbn [is_ok error value negb];
    try (split; [reflexivity|discriminate]);
    (match goal with |- context [py_int ?s] => destruct (py_int s) end);
    cbn [is_ok error value negb];
    try (split; [reflexivity|discriminate]);
    change (negb (STATUS_SUCCESS =? STATUS_SUCCESS)) with false; cbv iota;
    (destruct (iteration mod 17 =? 0); cbn [is_ok error value negb];
     [split; [reflexivity|discriminate]|]);
    change (negb (STATUS_SUCCESS =? STATUS_SUCCESS)) with false; cbv iota;
    destruct (iteration mod 23 =? 0); split; try reflexivity; discriminate.
Qed.

End Builtins.

Lemma three_ways_agree_witness :
  exists st,
    increment_file_expected
      (fun s => if String.eqb s "1" then Returns 1
                else Raises (ValueError "invalid literal"))
      (fun s => String.eqb s "1") "test.txt" 22
    = Returns (Some st)
    /\ increment_file_status
         (fun s => if String.eqb s "1" then Returns 1
                   else Raises (ValueError "invalid literal"))
         (fun s => String.eqb s "1") "test.txt" 22
       = Returns (code_of_status st)
    /\ increment_file_or_raise
         (fun s => if String.eqb s "1" then Returns 1
                   else Raises (ValueError "invalid literal"))
         "test.txt" 22
       = raised_for st 22
    /\ (increment_file_or_raise
          (fun s => if String.eqb s "1" then Returns 1
                    else Raises (ValueError "invalid literal"))
          "test.txt" 22
        = Returns tt
        <-> st = SUCCESS).
Proof.
  apply (three_ways_agree
           (fun s => if String.eqb s "1" then Returns 1
                     else Raises (ValueError "invalid literal"))
           (fun s => String.eqb s "1"));
    [reflexivity | eexists; reflexivity | reflexivity | reflexivity].
Defined.

Lemma failure_priority_witness :
  increment_file_status
    (fun s => if String.eqb s "1" then Returns 1
              else Raises (ValueError "invalid literal"))
    (fun s => String.eqb s "1") "test.txt" 34
  = Returns STATUS_INCREMENT_FAILED
  <-> ~ (6 | 34) /\ ~ (11 | 34) /\ (17 | 34).
Proof.
  apply (failure_priority
           (fun s => if String.eqb s "1" then Returns 1
                     else Raises (ValueError "invalid literal"))
           (fun s => String.eqb s "1"));
    [reflexivity | reflexivity | reflexivity].
Defined.

Lemma runners_return_witness :
  runner_raise
    (fun s => if String.eqb s "1" then Returns 1
              else Raises (ValueError "invalid literal"))
  = Returns tt.
Proof.
  refine (proj1 (runners_return _ (fun s => String.eqb s "1") _ _ _ _));
    [reflexivity | eexists; reflexivity | reflexivity | reflexivity].
Defined.

Lemma failure_period_witness :
  increment_file_status
    (fun s => if String.eqb s "1" then Returns 1
              else Raises (ValueError "invalid literal"))
    (fun s => String.eqb s "1") "test.txt" (11 + 25806 * 2)
  = increment_file_status
      (fun s => if String.eqb s "1" then Returns 1
                else Raises (ValueError "invalid literal"))
      (fun s => String.eqb s "1") "test.txt" 11.
Proof.
  apply (failure_period
           (fun s => if String.eqb s "1" then Returns 1
                     else Raises (ValueError "invalid literal"))
           (fun s => String.eqb s "1"));
    [reflexivity | reflexivity | reflexivity].
Defined.

Example raise_at_22 :
  increment_file_or_raise
    (fun s => if String.eqb s "1" then Returns 1
              else Raises (ValueError "invalid literal"))
    "test.txt" 22
  = Raises (ValueError "Conversion failed at iteration 22").
Proof. reflexivity. Qed.

End ErrorsFacts.

(** ** More on the factorizer *)

Lemma is_prime_iff (p : Z) : is_prime p <-> Z.prime p.
Proof.
  unfold is_prime, Z.prime.
  split; intros [H1 H2]; (split; [lia|]); intros n Hn; apply H2; lia.
Qed.

(** Primality by trying every candidate divisor. *)
Lemma is_prime_by_trial (p : Z) :
  2 <= p ->
  forallb (fun d => negb (p mod d =? 0)) (py_range 2 p) = true ->
  is_prime p.
Proof.
  intros Hp Hall. split; [assumption|]. intros d Hd Hdiv.
  rewrite forallb_forall in Hall.
  assert (Hin : In d (py_range 2 p)).
  { unfold py_range. apply in_map_iff. exists (Z.to_nat (d - 2)).
    split; [lia|]. apply in_seq. lia. }
  apply Hall in Hin. apply negb_true_iff, Z.eqb_neq in Hin.
  apply Hin. apply Z.mod_divide; [lia|assumption].
Qed.

Lemma product_cons (x : Z) (l : list Z) : product (x :: l) = x * product l.
Proof. reflexivity. Qed.

Lemma total_cons (x : Z) (l : list Z) : total (x :: l) = x + total l.
Proof. reflexivity. Qed.

(** Sizes in a list of integers that are all at least 2. *)
Lemma bounds_of_product (l : list Z) :
  Forall (fun x => 2 <= x) l ->
  1 <= product l
  /\ (l <> [] -> 2 <= product l)
  /\ Forall (fun x => x <= product l) l
  /\ 2 ^ Z.of_nat (length l) <= product l
  /\ total l <= product l.
Proof.
  induction 1 as [|x l Hx Hl (IH1 & IH2 & IH3 & IH4 & IH5)].
  - cbn. split; [lia|]. split; [intros H; now elim H|].
    split; [constructor|]. split; lia.
  - rewrite product_cons, total_cons. cbn [length].
    rewrite Nat2Z.inj_succ, Z.pow_succ_r by lia.
    assert (H0 : 0 < 2 ^ Z.of_nat (length l)) by (apply Z.pow_pos_nonneg; lia).
    split; [nia|]. split; [intros _; nia|]. split; [|split; [nia|]].
    + constructor; [nia|].
      eapply Forall_impl; [|exact IH3]. cbn. intros y Hy. nia.
    + destruct l as [|y l]; [cbn; lia|].
      assert (2 <= product (y :: l)) by (apply IH2; discriminate). nia.
Qed.

Lemma prime_in_product (p : Z) (l : list Z) :
  Z.prime p -> Forall is_prime l -> (p | product l) -> In p l.
Proof.
  intros Hp. induction 1 as [|x l Hx Hl IH]; intros Hd.
  - cbn in Hd. destruct Hp as [Hp _].
    apply Z.divide_1_r_nonneg in Hd; lia.
  - rewrite product_cons in Hd. apply Z.divide_prime_mul in Hd; [|assumption].
    destruct Hd as [Hd|Hd]; [left|right; now apply IH].
    symmetry. apply Z.divide_prime_prime; [assumption| |assumption].
    now apply is_prime_iff.
Qed.

Lemma sorted_head_le (x : Z) (l : list Z) :
  Sorted Z.le (x :: l) -> Forall (fun y => x <= y) l.
Proof.
  intros H. apply Sorted_extends in H; [assumption|].
  intros a b c. apply Z.le_trans.
Qed.

Lemma head_le_member (x y : Z) (l1 l2 : list Z) :
  Forall is_prime (x :: l1) -> Forall is_prime (y :: l2) ->
  Sorted Z.le (y :: l2) ->
  product (x :: l1) = product (y :: l2) -> y <= x.
Proof.
  intros H1 H2 Hs E.
  assert (Hin : In x (y :: l2)).
  { apply prime_in_product; [|assumption|].
    - apply is_prime_iff. now inversion H1.
    - rewrite <- E, product_cons. now exists (product l1); lia. }
  destruct Hin as [->|Hin]; [lia|].
  pose proof (sorted_head_le _ _ Hs) as Hle.
  rewrite Forall_forall in Hle. now apply Hle.
Qed.

(** A sorted list of primes is determined by its product. *)
Lemma sorted_primes_unique (l1 : list Z) :
  forall l2,
    Forall is_prime l1 -> Forall is_prime l2 ->
    Sorted Z.le l1 -> Sorted Z.le l2 ->
    product l1 = product l2 -> l1 = l2.
Proof.
  induction l1 as [|x l1 IH]; intros [|y l2] H1 H2 S1 S2 E.
  - reflexivity.
  - exfalso. assert (H : Forall (fun x => 2 <= x) (y :: l2)).
    { eapply Forall_impl; [|exact H2]. intros p [Hp _]. exact Hp. }
    destruct (bounds_of_product _ H) as (_ & Hb & _).
    specialize (Hb ltac:(discriminate)). cbn in E. cbn in Hb. lia.
  - exfalso. assert (H : Forall (fun x => 2 <= x) (x :: l1)).
    { eapply Forall_impl; [|exact H1]. intros p [Hp _]. exact Hp. }
    destruct (bounds_of_product _ H) as (_ & Hb & _).
    specialize (Hb ltac:(discriminate)). cbn in E. cbn in Hb. lia.
  - assert (Hxy : x = y).
    { pose proof (head_le_member x y l1 l2 H1 H2 S2 E).
      pose proof (head_le_member y x l2 l1 H2 H1 S1 (eq_sym E)). lia. }
    subst y. f_equal.
    inversion H1 as [|? ? Hx H1']; inversion H2 as [|? ? _ H2']; subst.
    apply Sorted_inv in S1. apply Sorted_inv in S2.
    apply IH; try tauto.
    rewrite !product_cons in E. destruct Hx as [Hx _].
    apply Z.mul_reg_l in E; [assumption|lia].
Qed.

(** X3: the factorizer inverts multiplication.  Run on the product of a
    non-decreasing list of primes, the generator yields back exactly that
    list; in particular it yields a prime alone. *)
Theorem factorize_product (l : list Z) (fuel : nat) :
  Forall is_prime l ->
  Sorted Z.le l ->
  (enough_for (product l) <= fuel)%nat ->
  prime_factors_generator fuel (product l) = gen_of_list l
  /\ factorize (product l) = l.
Proof.
  intros Hp Hs Hfuel.
  assert (H2 : Forall (fun x => 2 <= x) l).
  { eapply Forall_impl; [|exact Hp]. intros p [H _]. exact H. }
  destruct (bounds_of_product l H2) as (Hpos & _).
  pose proof (factorize_sound (product l)) as (_ & Hs' & Hprod & _).
  assert (E : factorize (product l) = l).
  { apply sorted_primes_unique; try assumption.
    - apply (generator_while_primes (enough_for (product l)) (product l) 2);
        [apply trial_inv_init|].
      apply (prime_factors_generator_factorize _ _ (le_n _)).
    - now apply Hprod. }
  split; [|exact E].
  rewrite prime_factors_generator_factorize by assumption. now rewrite E.
Qed.

Lemma factorize_product_witness :
  prime_factors_generator 200 (product [2; 2; 3; 7]) = gen_of_list [2; 2; 3; 7]
  /\ factorize (product [2; 2; 3; 7]) = [2; 2; 3; 7].
Proof.
  apply (factorize_product [2; 2; 3; 7] 200).
  - repeat constructor; now apply is_prime_by_trial.
  - repeat constructor; lia.
  - vm_compute. lia.
Defined.

(** X4: sizes of a factor sequence.  For n >= 1 every factor yielded lies
    between 2 and n, the number of factors is at most log2 n, and the sum
    of the factors is at most n. *)
Theorem factor_bounds (n : Z) (fuel : nat) :
  1 <= n ->
  (enough_for n <= fuel)%nat ->
  exists l,
    prime_factors_generator fuel n = gen_of_list l
    /\ Forall (fun x => 2 <= x <= n) l
    /\ 2 ^ Z.of_nat (length l) <= n
    /\ total l <= n.
Proof.
  intros Hn Hfuel. exists (factorize n).
  split; [now apply prime_factors_generator_factorize|].
  pose proof (factorize_sound n) as (H2 & _ & Hprod & _).
  specialize (Hprod Hn).
  destruct (bounds_of_product _ H2) as (_ & _ & Hle & Hpow & Htot).
  rewrite Hprod in *. repeat split; try assumption.
  rewrite Forall_forall in *. intros x Hx. split; [now apply H2|now apply Hle].
Qed.

Lemma factor_bounds_witness :
  exists l,
    prime_factors_generator 100 48 = gen_of_list l
    /\ Forall (fun x => 2 <= x <= 48) l
    /\ 2 ^ Z.of_nat (length l) <= 48
    /\ total l <= 48.
Proof. apply (factor_bounds 48 100); [lia | vm_compute; lia]. Defined.

(** X5: the callback form is the generator form with the callback as the
    body of the loop, for every callback, also one that raises, on every
    integer and every bound: the callback sees the factors the generator
    yields, in that order, and an exception of the callback ends the call
    where it would end the loop. *)
Theorem callback_is_generator_loop (St : Type) (fuel : nat) (number : Z)
  (callback : Z -> St -> result St) (st : St) :
  prime_factors_callback fuel number callback st
  = for_gen (prime_factors_generator fuel number) callback st
  /\ (forall x rest e,
        prime_factors_generator fuel number = Yield x rest ->
        callback x st = Raise e ->
        prime_factors_callback fuel number callback st = Raise e).
Proof.
  split; [apply prime_factors_callback_trace|].
  intros x rest e Hg Hcb.
  rewrite prime_factors_callback_trace, Hg. cbn [for_gen]. now rewrite Hcb.
Qed.

(** ** More on the pipelines *)

Lemma map_seq_shift (m : nat) :
  forall a n,
    map (fun i => a + Z.of_nat i) (seq n m)
    = map (fun i => a + Z.of_nat n + Z.of_nat i) (seq 0 m).
Proof.
  induction m as [|m IH]; intros a n; [reflexivity|].
  cbn [seq map]. f_equal; [lia|].
  rewrite (IH a (S n)), (IH (a + Z.of_nat n) 1%nat).
  apply map_ext. intros i. lia.
Qed.

Lemma py_range_app (a b c : Z) :
  a <= b <= c -> py_range a c = py_range a b ++ py_range b c.
Proof.
  intros H. unfold py_range.
  replace (Z.to_nat (c - a)) with (Z.to_nat (b - a) + Z.to_nat (c - b))%nat
    by lia.
  rewrite seq_app, map_app. f_equal.
  rewrite map_seq_shift. apply map_ext. intros i. lia.
Qed.

Lemma survivors_app (l1 l2 : list Z) :
  survivors (l1 ++ l2) = survivors l1 ++ survivors l2.
Proof. unfold survivors. apply filter_app. Qed.

Lemma expected_pair_split (a b c : Z) :
  a <= b + 1 -> b <= c ->
  expected_pair a c
  = (fst (expected_pair a b) + fst (expected_pair (b + 1) c),
     snd (expected_pair a b) + snd (expected_pair (b + 1) c)).
Proof.
  intros H1 H2. unfold expected_pair. cbn [fst snd].
  rewrite (py_range_app a (b + 1) (c + 1)) by lia.
  rewrite survivors_app, flat_map_app, total_app, length_app, Nat2Z.inj_add.
  reflexivity.
Qed.

Lemma adds_up_of_expected (pipeline : Z -> Z -> nat -> result (Z * Z))
  (a b c : Z) (fuel : nat) :
  (forall x y, y <= c -> pipeline x y fuel = Ok (expected_pair x y)) ->
  a <= b + 1 -> b <= c ->
  adds_up pipeline a b c fuel.
Proof.
  intros H H1 H2.
  exists (fst (expected_pair a b)), (snd (expected_pair a b)),
    (fst (expected_pair (b + 1) c)), (snd (expected_pair (b + 1) c)).
  rewrite !H by lia. rewrite <- !surjective_pairing.
  repeat split. f_equal. now apply expected_pair_split.
Qed.

(** X6: a range can be cut.  For a <= b + 1 and b <= c, what each strategy
    returns on [a, c] is the sum, component by component, of what it
    returns on [a, b] and on [b + 1, c]. *)
Theorem pipelines_add_up (a b c : Z) (fuel : nat) :
  a <= b + 1 -> b <= c ->
  (enough_for c <= fuel)%nat ->
  adds_up pipeline_callbacks_over a b c fuel
  /\ adds_up pipeline_generators_over a b c fuel
  /\ adds_up pipeline_iterators_over a b c fuel
  /\ adds_up pipeline_dynamic_dispatch_over a b c fuel
  /\ adds_up pipeline_async_over a b c fuel.
Proof.
  intros H1 H2 Hfuel.
  assert (Hcov : forall y, y <= c -> (enough_for y <= fuel)%nat).
  { intros y Hy. pose proof (enough_for_le y c Hy). lia. }
  repeat split; apply adds_up_of_expected; try assumption; intros x y Hy.
  - apply callbacks_expected. now apply Hcov.
  - apply generators_expected. now apply Hcov.
  - apply iterators_expected. now apply Hcov.
  - apply dynamic_dispatch_expected. now apply Hcov.
  - apply async_expected. now apply Hcov.
Qed.

Lemma pipelines_add_up_witness :
  adds_up pipeline_callbacks_over 3 20 49 99
  /\ adds_up pipeline_generators_over 3 20 49 99
  /\ adds_up pipeline_iterators_over 3 20 49 99
  /\ adds_up pipeline_dynamic_dispatch_over 3 20 49 99
  /\ adds_up pipeline_async_over 3 20 49 99.
Proof.
  apply (pipelines_add_up 3 20 49 99); [lia | lia | vm_compute; lia].
Defined.

(** X7: the empty range.  When pipe_end < pipe_start the range holds no
    value and every strategy returns (0, 0), without a single iteration
    of a factorizer loop. *)
Theorem empty_range_is_zero (a b : Z) (fuel : nat) :
  b < a ->
  pipeline_callbacks_over a b fuel = Ok (0, 0)
  /\ pipeline_generators_over a b fuel = Ok (0, 0)
  /\ pipeline_iterators_over a b fuel = Ok (0, 0)
  /\ pipeline_dynamic_dispatch_over a b fuel = Ok (0, 0)
  /\ pipeline_async_over a b fuel = Ok (0, 0).
Proof.
  intros H.
  assert (Hrange : py_range a (b + 1) = []).
  { unfold py_range. replace (Z.to_nat (b + 1 - a)) with 0%nat by lia.
    reflexivity. }
  unfold pipeline_callbacks_over, pipeline_generators_over,
    pipeline_iterators_over, pipeline_dynamic_dispatch_over,
    pipeline_async_over, for_range_async, run_stages.
  cbn [for_list process bind app]. rewrite !Hrange. repeat split.
Qed.

Lemma empty_range_is_zero_witness :
  pipeline_callbacks_over 10 3 0 = Ok (0, 0)
  /\ pipeline_generators_over 10 3 0 = Ok (0, 0)
  /\ pipeline_iterators_over 10 3 0 = Ok (0, 0)
  /\ pipeline_dynamic_dispatch_over 10 3 0 = Ok (0, 0)
  /\ pipeline_async_over 10 3 0 = Ok (0, 0).
Proof. apply (empty_range_is_zero 10 3 0). lia. Defined.





Lemma for_list_app {A St : Type} (body : A -> St -> result St) (l1 l2 : list A) :
  forall st,
    for_list (l1 ++ l2) body st
    = st' <- for_list l1 body st ;; for_list l2 body st'.
Proof.
  induction l1 as [|x l1 IH]; intros st; [reflexivity|].
  cbn [app for_list]. destruct (body x st) as [st'| |]; cbn [bind]; auto.
Qed.

(** X9: a [ForRangeStage] starts the buffer afresh.  Whatever stages run
    before it, provided none of them raises, the pipeline returns what it
    returns when it starts at that [ForRangeStage]: the stage clears the
    shared list before it extends it. *)
Theorem for_range_stage_resets (fuel : nat) (before after : list PipelineStage)
  (start end_ : Z) (data0 data : list Z) :
  for_list before (process fuel) data0 = Ok data ->
  for_list (before ++ ForRangeStage start end_ :: after) (process fuel) data0
  = for_list (ForRangeStage start end_ :: after) (process fuel) []
  /\ (data0 = [] ->
      run_stages fuel (before ++ ForRangeStage start end_ :: after)
      = run_stages fuel (ForRangeStage start end_ :: after)).
Proof.
  intros Hb.
  assert (E :
    for_list (before ++ ForRangeStage start end_ :: after) (process fuel) data0
    = for_list (ForRangeStage start end_ :: after) (process fuel) []).
  { rewrite for_list_app, Hb. reflexivity. }
  split; [exact E|]. intros ->. unfold run_stages. now rewrite E.
Qed.

Lemma for_range_stage_resets_witness :
  for_list
    ([ForRangeStage 1 100; FilterStage is_power_of_two]
     ++ ForRangeStage 3 9 :: [PrimeFactorsStage])
    (process 20) [7; 7]
  = for_list (ForRangeStage 3 9 :: [PrimeFactorsStage]) (process 20) [].
Proof.
  refine (proj1 (for_range_stage_resets 20
                   [ForRangeStage 1 100; FilterStage is_power_of_two]
                   [PrimeFactorsStage] 3 9 [7; 7] _ _)).
  vm_compute. reflexivity.
Defined.

Lemma twice_length_le_total (l : list Z) :
  Forall (fun x => 2 <= x) l -> 2 * Z.of_nat (length l) <= total l.
Proof.
  induction 1 as [|x l Hx Hl IH]; [cbn; lia|].
  rewrite total_cons. cbn [length]. lia.
Qed.

Lemma factors_at_least_two (vals : list Z) :
  Forall (fun x => 2 <= x) (flat_map factorize vals).
Proof.
  induction vals as [|v vals IH]; [constructor|].
  cbn [flat_map]. apply Forall_app. split; [|assumption].
  now destruct (factorize_sound v) as (H & _).
Qed.

(** X15: the pair a pipeline returns is never out of proportion: on every
    range the count is not negative and the sum is at least twice the
    count, since no factor is below 2. *)
Theorem pipeline_pair_bounds (a b : Z) (fuel : nat) :
  (enough_for b <= fuel)%nat ->
  exists s c,
    pipeline_callbacks_over a b fuel = Ok (s, c)
    /\ pipeline_generators_over a b fuel = Ok (s, c)
    /\ pipeline_iterators_over a b fuel = Ok (s, c)
    /\ pipeline_dynamic_dispatch_over a b fuel = Ok (s, c)
    /\ pipeline_async_over a b fuel = Ok (s, c)
    /\ 0 <= c
    /\ 2 * c <= s.
Proof.
  intros Hfuel.
  exists (fst (expected_pair a b)), (snd (expected_pair a b)).
  rewrite <- surjective_pairing.
  rewrite callbacks_expected, generators_expected, iterators_expected,
    dynamic_dispatch_expected, async_expected by exact Hfuel.
  repeat split.
  - unfold expected_pair. cbn [snd]. lia.
  - unfold expected_pair. cbn [fst snd].
    apply twice_length_le_total, factors_at_least_two.
Qed.

Lemma pipeline_pair_bounds_witness :
  exists s c,
    pipeline_callbacks_over 3 49 99 = Ok (s, c)
    /\ pipeline_generators_over 3 49 99 = Ok (s, c)
    /\ pipeline_iterators_over 3 49 99 = Ok (s, c)
    /\ pipeline_dynamic_dispatch_over 3 49 99 = Ok (s, c)
    /\ pipeline_async_over 3 49 99 = Ok (s, c)
    /\ 0 <= c
    /\ 2 * c <= s.
Proof. apply (pipeline_pair_bounds 3 49 99). vm_compute. lia. Defined.
